(** * Grading pipeline of the attention-mechanism tutorial

  A shallow embedding of the notebook executor ([notebook_executor.py]),
  the LLM evaluation layer ([llm_integration.py]) and the grading
  coordinator ([evaluation.py]), together with the properties that the
  design document states about them.

  Conventions of the embedding:
  - Python [str] is [string], one [ascii] per character: the characters
    are the code points below 256 (the Latin-1 range), and a text that
    holds any other character is outside the model.  The whitespace class
    and the case mapping are Python's on that range.
  - Python [int] is [Z]; list positions are [nat].
  - [datetime] values are [Z] counts of microseconds, which is the
    resolution of [datetime] and [timedelta].
  - The items of a Python [dict] whose keys are identifiers are a
    [gmap string _]; the dicts on which cells are executed are objects in
    a heap, held by address, because the functions that a cell defines
    keep the dict as their globals; a dict read from or written to JSON is
    an association list in insertion order inside [pyval].
  - What lives outside the repository (the Python interpreter behind
    [exec], [copy.deepcopy], [json.loads], [hashlib.md5], [numpy.mean],
    the HTTP services) is a [Variable] of the section that uses it, so
    every theorem holds for all behaviours of these collaborators. *)

From Stdlib Require Import ZArith QArith Ascii String List Lia Bool.
From stdpp Require Import base decidable option list gmap strings pretty.
From stdpp Require Import sorting.

Set Default Proof Using "Type".
Local Open Scope Z_scope.

(** ** Python string primitives *)

Module PyStr.

Definition newline : ascii := "010"%char.

(** The whitespace of [str.strip], [str.isspace] and of [\s] in a [str]
    pattern, among the code points below 256: TAB..CR, FS..US, the space,
    NEL (U+0085) and the no-break space (U+00A0). *)
Definition is_space (c : ascii) : bool :=
  let n := nat_of_ascii c in
  ((9 <=? n)%nat && (n <=? 13)%nat) || ((28 <=? n)%nat && (n <=? 32)%nat)
  || (n =? 133)%nat || (n =? 160)%nat.

Fixpoint all_space (s : string) : bool :=
  match s with
  | EmptyString => true
  | String c s' => is_space c && all_space s'
  end.

Fixpoint lstrip (s : string) : string :=
  match s with
  | EmptyString => EmptyString
  | String c s' => if is_space c then lstrip s' else s
  end.

(** [rstrip] keeps a character when it is not a space or when something
    that is kept follows it. *)
Fixpoint rstrip (s : string) : string :=
  match s with
  | EmptyString => EmptyString
  | String c s' =>
      match rstrip s' with
      | EmptyString => if is_space c then EmptyString else String c EmptyString
      | r => String c r
      end
  end.

(** [s.strip()] *)
Definition strip (s : string) : string := rstrip (lstrip s).

(** [s.startswith(p)] *)
Definition startswith (p s : string) : bool := String.prefix p s.

(** [needle in hay] *)
Fixpoint contains (needle hay : string) : bool :=
  String.prefix needle hay ||
  match hay with
  | EmptyString => false
  | String _ hay' => contains needle hay'
  end.

(** [str.lower] on one character: A..Z and the capital letters of the
    Latin-1 range (U+00C0..U+00DE without the multiplication sign U+00D7)
    move up by 32, every other character stays. *)
Definition lower_char (c : ascii) : ascii :=
  let n := nat_of_ascii c in
  if ((65 <=? n)%nat && (n <=? 90)%nat)
     || ((192 <=? n)%nat && (n <=? 222)%nat && negb (n =? 215)%nat)
  then ascii_of_nat (n + 32) else c.

(** [s.lower()] *)
Fixpoint lower (s : string) : string :=
  match s with
  | EmptyString => EmptyString
  | String c s' => String (lower_char c) (lower s')
  end.

(** [s.split(sep)] for a one-character separator: never the empty list. *)
Fixpoint split (sep : ascii) (s : string) : list string :=
  match s with
  | EmptyString => [EmptyString]
  | String c s' =>
      if Ascii.eqb c sep then EmptyString :: split sep s'
      else match split sep s' with
           | l :: ls => String c l :: ls
           | [] => [String c EmptyString]
           end
  end.

(** [''.join(parts)] *)
Definition join (parts : list string) : string :=
  foldr String.append EmptyString parts.

(** The remainder of [s] after the literal [p], when [s] starts with [p]. *)
Fixpoint strip_prefix (p s : string) : option string :=
  match p with
  | EmptyString => Some s
  | String a p' =>
      match s with
      | String b s' => if Ascii.eqb a b then strip_prefix p' s' else None
      | EmptyString => None
      end
  end.

End PyStr.

(** ** The pattern of [find_function_cell]

  [re.search(rf'^\s*def\s+{re.escape(name)}\s*\(', source, re.MULTILINE)]:
  the search succeeds when the pattern matches at some line start.  The
  matcher below tries every split of each whitespace run, as the regular
  expression engine does by backtracking. *)

Module Re.
Import PyStr.

(** [\s*] followed by the continuation [k]. *)
Fixpoint spaces_then (k : string -> bool) (s : string) : bool :=
  k s ||
  match s with
  | EmptyString => false
  | String c s' => is_space c && spaces_then k s'
  end.

(** [\s+] followed by the continuation [k]. *)
Definition spaces1_then (k : string -> bool) (s : string) : bool :=
  match s with
  | EmptyString => false
  | String c s' => is_space c && spaces_then k s'
  end.

(** A literal followed by the continuation [k]. *)
Definition lit_then (p : string) (k : string -> bool) (s : string) : bool :=
  match strip_prefix p s with
  | Some rest => k rest
  | None => false
  end.

(** The pattern after its anchor: [\s*def\s+NAME\s*\(]. *)
Definition def_header_at (name s : string) : bool :=
  spaces_then
    (lit_then "def"
       (spaces1_then
          (lit_then name
             (spaces_then (lit_then "(" (fun _ => true)))))) s.

(** [^] with [re.MULTILINE] holds at the start of the text and just after
    each newline; [bol] tells whether the current position is one. *)
Fixpoint search_from (bol : bool) (name s : string) : bool :=
  (bol && def_header_at name s) ||
  match s with
  | EmptyString => false
  | String c s' => search_from (Ascii.eqb c newline) name s'
  end.

Definition search_def (name source : string) : bool :=
  search_from true name source.

End Re.


(** ** [notebook_executor.py]: class [NotebookExecutor] *)

Module NotebookExecutor.
Import PyStr.

(** A cell of the notebook document: [cell.get('cell_type')] and
    [cell.get('source', '')], the source being a string or a list of lines. *)
Inductive RawSource :=
| SourceText (s : string)
| SourceLines (lines : list string).

Record RawCell := {
  raw_cell_type : option string;
  raw_source : option RawSource
}.

(** An entry of [self.cells]. *)
Record CodeCell := {
  index : nat;
  source : string;
  original_index : nat
}.

Definition source_text (cell : RawCell) : string :=
  match raw_source cell with
  | None => EmptyString
  | Some (SourceText s) => s
  | Some (SourceLines lines) => join lines
  end.

(** The loop of [_extract_code_cells]: [idx] enumerates all cells of the
    document, [cells] is the list built so far. *)
Fixpoint extract_loop (idx : nat) (raw : list RawCell) (cells : list CodeCell)
  : list CodeCell :=
  match raw with
  | [] => cells
  | cell :: raw' =>
      if bool_decide (raw_cell_type cell = Some "code") then
        extract_loop (S idx) raw'
          (cells ++ [{| index := idx;
                        source := source_text cell;
                        original_index := length cells |}])
      else extract_loop (S idx) raw' cells
  end.

Definition _extract_code_cells (notebook_cells : list RawCell)
  : list CodeCell :=
  extract_loop 0 notebook_cells [].

(** *** Dict objects

    [exec(cell_code, local_context)] runs the cell with the dict
    [local_context] as its globals, and every function that the cell defines
    keeps that very dict as its [__globals__].  A namespace dict is
    therefore an object with an identity: the memory of the interpreter
    holds the dicts by address, next to everything else that running code
    can change (the contents of the other objects, random state, files),
    which is [Store]. *)
Definition Addr := nat.

Record Memory (Value Store : Type) := {
  dicts : gmap Addr (gmap string Value);
  store : Store
}.
Arguments dicts {Value Store} _.
Arguments store {Value Store} _.

(** The items of the dict at an address. *)
Definition dict_items {Value Store : Type} (m : Memory Value Store)
    (a : Addr) : gmap string Value :=
  default ∅ (dicts m !! a).

(** A new dict object with the given items, at an address not in use. *)
Definition new_dict {Value Store : Type} (items : gmap string Value)
    (m : Memory Value Store) : Addr * Memory Value Store :=
  let a := fresh (dom (dicts m)) in
  (a, {| dicts := <[a := items]> (dicts m); store := store m |}).

(** [d.copy()]: a new dict object with the items of [d]. *)
Definition dict_copy {Value Store : Type} (a : Addr)
    (m : Memory Value Store) : Addr * Memory Value Store :=
  new_dict (dict_items m a) m.

(** [d[key] = value] *)
Definition dict_set {Value Store : Type} (a : Addr) (key : string)
    (value : Value) (m : Memory Value Store) : Memory Value Store :=
  {| dicts := <[a := <[key := value]> (dict_items m a)]> (dicts m);
     store := store m |}.

(** What [exec(cell_code, local_context)] does.  A cell either runs to its
    end or raises an [Exception] with text [msg]; in both cases it leaves
    the memory [m], in which it may have changed the dict it was given and,
    through the functions it has called, the dicts that are their globals,
    as well as the store.  A cell that does not terminate, or that leaves
    through [SystemExit] or [KeyboardInterrupt], which [except Exception]
    does not catch, is outside the model. *)
Inductive ExecResult (Value Store : Type) :=
| Returned (m : Memory Value Store)
| Raised (msg traceback : string) (m : Memory Value Store).
Arguments Returned {Value Store} m.
Arguments Raised {Value Store} msg traceback m.

(** The fields of the object that change or are read after construction. *)
Record Executor (Value : Type) := {
  cells : list CodeCell;
  execution_cache : gmap Z (gmap string Value)
}.
Arguments cells {Value} _.
Arguments execution_cache {Value} _.

(** [__init__], given the cells of the loaded document. *)
Definition init {Value : Type} (notebook_cells : list RawCell)
  : Executor Value :=
  {| cells := _extract_code_cells notebook_cells; execution_cache := ∅ |}.

(** The names bound by [_initialize_context]; the three import branches bind
    the same names. *)
Definition injected_names : list string :=
  [ "__builtins__"; "__name__"; "torch"; "nn"; "F"; "np"; "math";
    "tokenize_text"; "create_embeddings"; "visualize_qkv_projections";
    "visualize_attention_scores"; "visualize_attention_weights";
    "visualize_attended_output" ].

(** The keys that the cache of [execute_cells_until] stores by reference. *)
Definition module_keys : list string :=
  [ "__builtins__"; "torch"; "nn"; "F"; "np"; "math" ].

(** The table of [validate_context_for_function];
    [requirements.get(function_name, [])]. *)
Definition requirements (function_name : string) : list string :=
  if String.eqb function_name "create_qkv_projections" then
    ["embeddings"; "torch"; "nn"]
  else if String.eqb function_name "compute_attention_scores" then
    ["Q"; "K"; "torch"; "math"]
  else if String.eqb function_name "compute_attention_weights" then
    ["attention_scores"; "F"]
  else if String.eqb function_name "aggregate_values" then
    ["attention_weights"; "V"; "torch"]
  else [].

Section WithInterpreter.
Context {Value Store : Type}.

(** The interpreter, [copy.deepcopy] ([None] when it raises), the two tests
    made on a value before caching it, and the objects bound at start-up. *)
Variable exec : string -> Addr -> Memory Value Store -> ExecResult Value Store.
Variable deepcopy : Value -> option Value.
Variable has_module_attr : Value -> bool.
Variable is_module : Value -> bool.
Variable runtime_object : string -> Value.

Abbreviation Namespace := (gmap string Value).

(** The items of the dict that [_initialize_context] builds. *)
Definition _initialize_context : Namespace :=
  list_to_map ((fun name => (name, runtime_object name)) <$> injected_names).

(** [_safe_cell_execution]: the cell runs on a copy of the dict [context];
    on success the copy is returned, on an exception the dict [context]
    itself, with whatever items it has by then. *)
Definition _safe_cell_execution (cell_code : string) (context : Addr)
    (cell_index : nat) (m : Memory Value Store)
  : Addr * option string * Memory Value Store :=
  let '(local_context, m1) := dict_copy context m in
  match exec cell_code local_context m1 with
  | Returned m' => (local_context, None, m')
  | Raised msg traceback m' =>
      (context,
       Some ("Cell " +:+ pretty cell_index +:+ " execution failed: " +:+ msg
             +:+ String newline ("Traceback: " +:+ traceback)),
       m')
  end.

(** The test made on a cell before it is executed: [true] when the loop
    goes on to the next cell without executing this one. *)
Definition skipped (cell_source : string) : bool :=
  bool_decide (cell_source = EmptyString)
  || startswith "!" cell_source || startswith "%" cell_source
  || contains "from src.evaluation import" cell_source.

(** The [for i, cell in enumerate(self.cells)] loop of [execute_cells_until],
    from position [i] on; [context] is the dict the loop holds, [out]
    collects the printed warnings. *)
Fixpoint replay_loop (i : nat) (rest : list CodeCell) (target_cell_index : Z)
    (context : Addr) (out : list string) (m : Memory Value Store)
  : Addr * list string * Memory Value Store :=
  match rest with
  | [] => (context, out, m)
  | cell :: rest' =>
      if bool_decide (Z.of_nat (original_index cell) > target_cell_index) then
        (context, out, m)
      else
        let cell_source := strip (source cell) in
        if skipped cell_source then
          replay_loop (S i) rest' target_cell_index context out m
        else
          let '(context', error, m') :=
            _safe_cell_execution cell_source context i m in
          let out' :=
            match error with
            | Some e =>
                out ++ ["Warning: Cell " +:+ pretty i
                        +:+ " execution failed: " +:+ e]
            | None => out
            end in
          replay_loop (S i) rest' target_cell_index context' out' m'
  end.

(** The value stored in the cache for one binding. *)
Definition cacheable_value (key : string) (value : Value) : Value :=
  if negb (has_module_attr value
           && (is_module value || bool_decide (key ∈ module_keys)))
  then match deepcopy value with
       | Some copy => copy
       | None => value
       end
  else value.

Definition cacheable_context (context : Namespace) : Namespace :=
  map_imap (fun key value => Some (cacheable_value key value)) context.

(** [copy.deepcopy] of a cached dict: it raises when the copy of a value
    does. *)
Definition deepcopy_dict (d : Namespace) : option Namespace :=
  if decide (map_Forall (fun _ value => is_Some (deepcopy value)) d)
  then Some (omap deepcopy d)
  else None.

(** [execute_cells_until]: the items of the dict that is returned ([None]
    when [copy.deepcopy] raised on a cache hit), the object with its cache
    updated, what was printed, and the memory. *)
Definition execute_cells_until (self : Executor Value) (target_cell_index : Z)
    (m : Memory Value Store)
  : option Namespace * Executor Value * list string * Memory Value Store :=
  match execution_cache self !! target_cell_index with
  | Some cached => (deepcopy_dict cached, self, [], m)
  | None =>
      let '(context, m0) := new_dict _initialize_context m in
      let '(context', out, m') :=
        replay_loop 0 (cells self) target_cell_index context [] m0 in
      let items := dict_items m' context' in
      (Some items,
       {| cells := cells self;
          execution_cache :=
            <[target_cell_index := cacheable_context items]>
              (execution_cache self) |},
       out, m')
  end.

(** [find_function_cell] *)
Fixpoint find_loop (function_name : string) (rest : list CodeCell) : Z :=
  match rest with
  | [] => -1
  | cell :: rest' =>
      if Re.search_def function_name (source cell)
      then Z.of_nat (original_index cell)
      else find_loop function_name rest'
  end.

Definition find_function_cell (self : Executor Value)
    (function_name : string) : Z :=
  find_loop function_name (cells self).

(** [validate_context_for_function] *)
Definition validate_context_for_function (function_name : string)
    (context : Namespace) : bool * list string :=
  let required := requirements function_name in
  let missing := filter (fun var => context !! var = None) required in
  (bool_decide (length missing = 0%nat), missing).

End WithInterpreter.

End NotebookExecutor.

(** ** Python values that travel through JSON *)

Module Py.

(** The verdict dicts, the provider responses and the cache payloads.
    Numbers are integers; fractional JSON numbers are outside the model. *)
#[local] Unset Elimination Schemes.
Inductive pyval :=
| PyNone
| PyBool (b : bool)
| PyInt (n : Z)
| PyStr (s : string)
| PyList (items : list pyval)
| PyDict (entries : list (string * pyval)).
#[local] Set Elimination Schemes.

(** [bool(v)] *)
Definition truthy (v : pyval) : bool :=
  match v with
  | PyNone => false
  | PyBool b => b
  | PyInt n => negb (n =? 0)
  | PyStr s => negb (String.eqb s EmptyString)
  | PyList items => negb (bool_decide (length items = 0%nat))
  | PyDict entries => negb (bool_decide (length entries = 0%nat))
  end.

Fixpoint assoc (key : string) (entries : list (string * pyval))
  : option pyval :=
  match entries with
  | [] => None
  | (k, v) :: rest => if String.eqb k key then Some v else assoc key rest
  end.

(** [d.get(key)] on a dict: [PyNone] when the key is absent. *)
Definition get (d : pyval) (key : string) : pyval :=
  match d with
  | PyDict entries => from_option id PyNone (assoc key entries)
  | _ => PyNone
  end.

(** What a Python call gives back: a value or an exception. *)
Inductive Exn :=
| LLMProviderError (msg : string)
| IndexError
| AttributeError.

Inductive Result (A : Type) :=
| Ok (a : A)
| Raise (e : Exn).
Arguments Ok {A} a.
Arguments Raise {A} e.

End Py.

(** ** [llm_integration.py] *)

Module LLM.
Import PyStr Py.

(** *** The world outside the process

    The wall clock in microseconds, the files of the cache directory and the
    record of the requests sent and the sleeps taken. *)

Inductive Role := Primary | Fallback.

Inductive Event :=
| Post (role : Role) (prompt : string)
| Slept (micros : Z).

(** A cache file: unreadable as the expected JSON, or the stored record. *)
Inductive CacheFile :=
| Corrupt
| Stored (timestamp : Z) (data : pyval).

Record World := {
  clock : Z;
  files : gmap string CacheFile;
  trace : list Event
}.

Definition seconds (n : Z) : Z := n * 1000000.

(** [time.sleep] *)
Definition sleep (micros : Z) (w : World) : World :=
  {| clock := clock w + micros;
     files := files w;
     trace := trace w ++ [Slept micros] |}.

(** Time passes. *)
Definition elapse (micros : Z) (w : World) : World :=
  {| clock := clock w + micros; files := files w; trace := trace w |}.

Definition is_post (e : Event) : bool :=
  match e with Post _ _ => true | Slept _ => false end.

(** The requests sent so far. *)
Definition posts (w : World) : list Event := List.filter is_post (trace w).

(** The answer of a provider to one request: the response text extracted
    from the reply (any JSON value), or an exception.  A request takes no
    time on the clock of the model. *)
Inductive HttpOutcome :=
| HttpOk (response_text : pyval)
| HttpError (msg : string).

(** *** [RateLimiter] *)

Record RateLimiter := {
  requests_per_minute : Z;
  burst_limit : Z;
  requests : list Z
}.

Definition minute : Z := seconds 60.

(** [now - req_time < timedelta(minutes=1)] *)
Definition in_window (now req_time : Z) : bool := now - req_time <? minute.

(** [wait_if_needed]: [Some IndexError] when [self.requests[0]] is read from
    an empty list.  The sleep time, which Python computes in floating-point
    seconds, is the exact number of microseconds here. *)
Definition wait_if_needed (self : RateLimiter) (w : World)
  : option Exn * RateLimiter * World :=
  let now := clock w in
  let pruned := List.filter (in_window now) (requests self) in
  let with_requests (l : list Z) :=
    {| requests_per_minute := requests_per_minute self;
       burst_limit := burst_limit self;
       requests := l |} in
  if Z.of_nat (length pruned) >=? requests_per_minute self then
    match pruned with
    | [] => (Some IndexError, with_requests pruned, w)
    | first :: _ =>
        let sleep_time := minute - (now - first) in
        let w' := if sleep_time >? 0 then sleep sleep_time w else w in
        (None, with_requests (pruned ++ [now]), w')
    end
  else (None, with_requests (pruned ++ [now]), w).

(** *** [ResponseCache] *)

Record ResponseCache := {
  cache_dir : string;
  ttl_seconds : Z
}.

Definition cache_file (self : ResponseCache) (key : string) : string :=
  cache_dir self +:+ "/" +:+ key +:+ ".json".

Definition unlink (path : string) (w : World) : World :=
  {| clock := clock w; files := delete path (files w); trace := trace w |}.

(** [ResponseCache.get] *)
Definition cache_get (self : ResponseCache) (key : string) (w : World)
  : option pyval * World :=
  let path := cache_file self key in
  match files w !! path with
  | None => (None, w)
  | Some Corrupt => (None, unlink path w)
  | Some (Stored cache_time data) =>
      if clock w - cache_time >? seconds (ttl_seconds self)
      then (None, unlink path w)
      else (Some data, w)
  end.

(** [ResponseCache.set] *)
Definition cache_set (self : ResponseCache) (key : string) (data : pyval)
    (w : World) : World :=
  {| clock := clock w;
     files := <[cache_file self key := Stored (clock w) data]> (files w);
     trace := trace w |}.

(** *** Providers *)

Inductive ProviderKind := Ollama | OpenAI.

Record Provider := {
  kind : ProviderKind;
  retry_attempts : Z
}.

Definition kind_name (k : ProviderKind) : string :=
  match k with Ollama => "Ollama" | OpenAI => "OpenAI" end.

Record Evaluator := {
  cache : option ResponseCache;
  rate_limiter : RateLimiter;
  primary_provider : Provider;
  fallback_provider : option Provider
}.

Definition with_rate_limiter (self : Evaluator) (rl : RateLimiter)
  : Evaluator :=
  {| cache := cache self;
     rate_limiter := rl;
     primary_provider := primary_provider self;
     fallback_provider := fallback_provider self |}.

(** The verdict of one line of a free-text response, given the verdict so
    far: the body of the loop of [_parse_text_response]. *)
Definition classify_line (verdict : string * Z) (line : string) : string * Z :=
  let line := lower (strip line) in
  if contains "correct" line && contains "implementation" line then
    ("correct", 85)
  else if contains "incorrect" line || contains "error" line then
    ("incorrect", 25)
  else if contains "partially" line || contains "almost" line then
    ("partially_correct", 60)
  else verdict.

Section WithServices.

(** The provider services (an answer may depend on everything that happened
    before), [json.loads] ([None] for [JSONDecodeError]), the hex digest of
    [hashlib.md5], the prompt template and [datetime.isoformat]. *)
Variable http_post : Role -> string -> list Event -> HttpOutcome.
Variable json_loads : string -> option pyval.
Variable md5_hexdigest : string -> string.
Variable create_code_comparison_prompt :
  string -> string -> string -> option pyval -> string.
Variable isoformat : Z -> string.

(** [_generate_cache_key] *)
Definition _generate_cache_key
    (student_code reference_code function_name : string) : string :=
  md5_hexdigest
    (student_code +:+ "|" +:+ reference_code +:+ "|" +:+ function_name).

(** [_parse_text_response] *)
Definition _parse_text_response (response function_name : string) (now : Z)
  : pyval :=
  let lines := split newline response in
  let verdict := foldl classify_line ("unknown", 50) lines in
  PyDict [ ("comparison_result", PyStr verdict.1);
           ("educational_feedback", PyStr response);
           ("suggestions", PyList []);
           ("score", PyInt verdict.2);
           ("understanding_check", PyList []);
           ("function_name", PyStr function_name);
           ("timestamp", PyStr (isoformat now)) ].

(** [_parse_comparison_response]; [response.strip()] raises when the
    provider handed back something that is not a string. *)
Definition _parse_comparison_response (response : pyval)
    (function_name : string) (now : Z) : Result pyval :=
  match response with
  | PyStr text =>
      if startswith "{" (strip text) then
        match json_loads text with
        | Some parsed => Ok parsed
        | None => Ok (_parse_text_response text function_name now)
        end
      else Ok (_parse_text_response text function_name now)
  | _ => Raise AttributeError
  end.

(** The [for attempt in range(retry_attempts)] loop of [generate_response];
    [remaining] counts the iterations left.  When the range is empty the
    function falls off its end and returns [None]. *)
Fixpoint attempt_loop (role : Role) (self : Provider) (prompt : string)
    (remaining : nat) (attempt : Z) (w : World) : Result pyval * World :=
  match remaining with
  | O => (Ok PyNone, w)
  | S remaining' =>
      let outcome := http_post role prompt (trace w) in
      let w1 := {| clock := clock w; files := files w;
                   trace := trace w ++ [Post role prompt] |} in
      match outcome with
      | HttpOk response_text => (Ok response_text, w1)
      | HttpError msg =>
          if attempt =? retry_attempts self - 1 then
            (Raise (LLMProviderError
                      (kind_name (kind self) +:+ " provider failed after "
                       +:+ pretty (retry_attempts self)
                       +:+ " attempts: " +:+ msg)),
             w1)
          else
            attempt_loop role self prompt remaining' (attempt + 1)
              (sleep (seconds (2 ^ attempt)) w1)
      end
  end.

Definition generate_response (role : Role) (self : Provider) (prompt : string)
    (w : World) : Result pyval * World :=
  attempt_loop role self prompt (Z.to_nat (retry_attempts self)) 0 w.

(** The provider loop of [compare_code]: [None] when [result] is still
    [None] after the loop. *)
Fixpoint try_providers (providers : list (Role * option Provider))
    (prompt function_name : string) (w : World) : option pyval * World :=
  match providers with
  | [] => (None, w)
  | (_, None) :: rest => try_providers rest prompt function_name w
  | (role, Some provider) :: rest =>
      match generate_response role provider prompt w with
      | (Ok response, w1) =>
          match _parse_comparison_response response function_name
                  (clock w1) with
          | Ok result => (Some result, w1)
          | Raise _ => try_providers rest prompt function_name w1
          end
      | (Raise _, w1) => try_providers rest prompt function_name w1
      end
  end.

Definition providers_of (self : Evaluator) : list (Role * option Provider) :=
  [ (Primary, Some (primary_provider self));
    (Fallback, fallback_provider self) ].

(** The cache lookup of [compare_code]: the cached result when the cache is
    enabled and the stored value is truthy. *)
Definition cache_lookup (self : Evaluator) (cache_key : string) (w : World)
  : option pyval * World :=
  match cache self with
  | Some c =>
      match cache_get c cache_key w with
      | (Some cached_result, w1) =>
          if truthy cached_result then (Some cached_result, w1) else (None, w1)
      | (None, w1) => (None, w1)
      end
  | None => (None, w)
  end.

(** [compare_code] *)
Definition compare_code (self : Evaluator)
    (student_code reference_code function_name : string)
    (context : option pyval) (w : World) : Result pyval * Evaluator * World :=
  let '(error, limiter, w1) := wait_if_needed (rate_limiter self) w in
  let self1 := with_rate_limiter self limiter in
  match error with
  | Some e => (Raise e, self1, w1)
  | None =>
      let cache_key :=
        _generate_cache_key student_code reference_code function_name in
      match cache_lookup self1 cache_key w1 with
      | (Some cached_result, w2) => (Ok cached_result, self1, w2)
      | (None, w2) =>
          let prompt :=
            create_code_comparison_prompt
              student_code reference_code function_name context in
          match try_providers (providers_of self1) prompt function_name w2 with
          | (None, w3) =>
              (Raise (LLMProviderError
                        "All LLM providers failed to generate response"),
               self1, w3)
          | (Some result, w3) =>
              let w4 :=
                match cache self1 with
                | Some c => cache_set c cache_key result w3
                | None => w3
                end in
              (Ok result, self1, w4)
          end
      end
  end.

End WithServices.

End LLM.

(** ** [evaluation.py]: the grading coordinator *)

Module Evaluation.
Import PyStr Py.

(** The fields of [implementation_info] that [grade_notebook] reads. *)
Record Implementation := {
  function_name : string;
  code : string;
  cell_index : Z
}.

Record SectionResult := {
  llm_evaluation : pyval;
  tensor_validation : pyval;
  section_function : string
}.

(** The report with its overall score, its letter grade, its section
    results and the two counts of its summary, or the dict built by the
    [except] clause.  Writing the report file is not part of the model. *)
Inductive GradeReport :=
| Report (score : Q) (grade : string)
    (section_results : list (string * SectionResult))
    (sections_evaluated sections_implemented : nat)
| ErrorReport.

(** [report['overall_score']] *)
Definition overall_score (report : GradeReport) : Q :=
  match report with
  | Report score _ _ _ _ => score
  | ErrorReport => 0%Q
  end.

(** [_score_to_letter_grade] *)
Definition _score_to_letter_grade (score : Q) : string :=
  if Qle_bool 90 score then "A"
  else if Qle_bool 80 score then "B"
  else if Qle_bool 70 score then "C"
  else if Qle_bool 60 score then "D"
  else "F".

(** A score that is a Python [int] or [bool], as a number. *)
Definition as_number (v : pyval) : option Z :=
  match v with
  | PyInt n => Some n
  | PyBool b => Some (if b then 1 else 0)
  | _ => None
  end.

Definition sum_Z (l : list Z) : Z := foldr Z.add 0 l.

(** [eval_result.get(key)]: [None] for the [AttributeError] of a value that
    is not a dict. *)
Definition dict_get (d : pyval) (key : string) : option pyval :=
  match d with
  | PyDict entries => Some (from_option id PyNone (assoc key entries))
  | _ => None
  end.

(** [verdict['comparison_result'] != 'not_implemented']: [None] for the
    [KeyError] of a verdict without that key and for the [TypeError] of a
    verdict that is not a dict. *)
Definition comparison_flag (verdict : pyval) : option bool :=
  match verdict with
  | PyDict entries =>
      match assoc "comparison_result" entries with
      | Some (PyStr result) => Some (negb (String.eqb result "not_implemented"))
      | Some _ => Some true
      | None => None
      end
  | _ => None
  end.

(** [r['llm_evaluation']['comparison_result'] != 'not_implemented'] *)
Definition is_implemented (r : SectionResult) : option bool :=
  comparison_flag (llm_evaluation r).

Definition not_implemented : SectionResult :=
  {| llm_evaluation :=
       PyDict [ ("comparison_result", PyStr "not_implemented");
                ("score", PyInt 0);
                ("educational_feedback", PyStr "Function not implemented") ];
     tensor_validation :=
       PyDict [ ("valid", PyBool false); ("error", PyStr "No implementation") ];
     section_function := EmptyString |}.

Section WithEvaluators.

(** [evaluate_cell_implementation] and the tensor test of a section with its
    [try]/[except], neither of which raises, and [np.mean] of a non-empty
    list, with its result as an exact fraction and [None] when it raises.
    The sections are the items of a dict: no section name occurs twice. *)
Variable evaluate : Implementation -> pyval.
Variable tensor_test : Implementation -> pyval.
Variable np_mean : list pyval -> option Q.

(** The loop over [student_implementations.items()]; [None] when the loop
    is left by an exception. *)
Fixpoint grade_sections (sections : list (string * Implementation))
    (section_results : list (string * SectionResult))
    (overall_scores : list pyval)
  : option (list (string * SectionResult) * list pyval) :=
  match sections with
  | [] => Some (section_results, overall_scores)
  | (section_name, implementation_info) :: rest =>
      if truthy (PyStr (code implementation_info)) then
        let eval_result := evaluate implementation_info in
        let tensor_result := tensor_test implementation_info in
        let entry :=
          {| llm_evaluation := eval_result;
             tensor_validation := tensor_result;
             section_function := function_name implementation_info |} in
        match dict_get eval_result "score" with
        | None => None
        | Some PyNone =>
            grade_sections rest (section_results ++ [(section_name, entry)])
              overall_scores
        | Some score =>
            grade_sections rest (section_results ++ [(section_name, entry)])
              (overall_scores ++ [score])
        end
      else
        let entry :=
          {| llm_evaluation := llm_evaluation not_implemented;
             tensor_validation := tensor_validation not_implemented;
             section_function := function_name implementation_info |} in
        grade_sections rest (section_results ++ [(section_name, entry)])
          (overall_scores ++ [PyInt 0])
  end.

(** [grade_notebook], given the extracted implementations: the loop, the
    mean, and the report with its summary, all inside the [try]. *)
Definition grade_notebook
    (student_implementations : list (string * Implementation))
  : GradeReport :=
  match grade_sections student_implementations [] [] with
  | None => ErrorReport
  | Some (section_results, overall_scores) =>
      let mean :=
        match overall_scores with
        | [] => Some 0%Q
        | _ => np_mean overall_scores
        end in
      match mean with
      | None => ErrorReport
      | Some overall_score =>
          match mapM is_implemented section_results.*2 with
          | None => ErrorReport
          | Some implemented =>
              Report overall_score (_score_to_letter_grade overall_score)
                section_results (length section_results)
                (length (filter (fun b => b = true) implemented))
          end
      end
  end.

End WithEvaluators.

End Evaluation.

(** ** The properties in the words of the design document

    The notions in which the design document states its properties, each
    defined on its own and compared with the code in the second part. *)

Module Spec.
Import PyStr.

(** *** The function locator

    A cell defines [name] when its source holds, at the start of a line,
    optional whitespace, [def], whitespace, the name itself, optional
    whitespace and an opening parenthesis. *)

Definition at_line_start (before : string) : Prop :=
  before = EmptyString \/ exists p, before = p +:+ String newline EmptyString.

Definition has_def_header (name src : string) : Prop :=
  exists before ws1 ws2 ws3 after,
    src = before +:+ ws1 +:+ "def" +:+ ws2 +:+ name +:+ ws3 +:+ "(" +:+ after
    /\ at_line_start before
    /\ all_space ws1 = true
    /\ all_space ws2 = true /\ ws2 <> EmptyString
    /\ all_space ws3 = true.

(** Cells whose ordinal is their position in the list, counted from [base]. *)
Definition ordinals_from (base : nat) (l : list NotebookExecutor.CodeCell)
  : Prop :=
  forall k c,
    l !! k = Some c -> NotebookExecutor.original_index c = (base + k)%nat.

(** *** The rate limiter over time

    The states of a limiter created with an empty window: between calls time
    passes, and a call that returns leaves the clock where its sleep ended. *)

Inductive limiter_at (rpm burst : Z) : LLM.RateLimiter -> Z -> Prop :=
| limiter_new (t : Z) :
    limiter_at rpm burst
      {| LLM.requests_per_minute := rpm; LLM.burst_limit := burst;
         LLM.requests := [] |} t
| limiter_idle (rl : LLM.RateLimiter) (t d : Z) :
    limiter_at rpm burst rl t -> 0 <= d -> limiter_at rpm burst rl (t + d)
| limiter_call (rl rl' : LLM.RateLimiter) (w w' : LLM.World) :
    limiter_at rpm burst rl (LLM.clock w) ->
    LLM.wait_if_needed rl w = (None, rl', w') ->
    limiter_at rpm burst rl' (LLM.clock w').

(** From time [t] on, the timestamps still inside the window are at most
    [rpm]. *)
Definition window_bounded (rpm : Z) (rl : LLM.RateLimiter) (t : Z) : Prop :=
  forall T, t <= T ->
    Z.of_nat (length (List.filter (LLM.in_window T) (LLM.requests rl))) <= rpm.

(** *** The requests of one provider attempt

    [n] requests to the provider, with a sleep of [2 ^ attempt] seconds
    between one request and the next. *)
Fixpoint attempts (role : LLM.Role) (prompt : string) (attempt : Z) (n : nat)
  : list LLM.Event :=
  match n with
  | O => []
  | S n' =>
      LLM.Post role prompt ::
      match n' with
      | O => []
      | S _ =>
          LLM.Slept (LLM.seconds (2 ^ attempt))
          :: attempts role prompt (attempt + 1) n'
      end
  end.

(** Every request with this prompt, to any provider, fails. *)
Definition all_requests_fail
    (http_post : LLM.Role -> string -> list LLM.Event -> LLM.HttpOutcome)
    (prompt : string) : Prop :=
  forall role history,
    exists msg, http_post role prompt history = LLM.HttpError msg.

(** The number of requests a provider may be sent in one attempt. *)
Definition request_budget (provider : option LLM.Provider) : nat :=
  match provider with
  | Some p => Z.to_nat (LLM.retry_attempts p)
  | None => 0
  end.

(** *** The keyword rules of the free-text parser, line by line

    The rule that applies to a trimmed, lower-cased line, if any: a correct
    implementation is named, else something incorrect or an error, else
    something partial or almost right.  The verdict of a response is the one
    of its last line to which a rule applies. *)
Definition keyword_rule (line : string) : option (string * Z) :=
  if contains "correct" line && contains "implementation" line
     && negb (contains "incorrect" line) then
    Some ("correct", 85)
  else if contains "incorrect" line || contains "error" line then
    Some ("incorrect", 25)
  else if contains "partially" line || contains "almost" line then
    Some ("partially_correct", 60)
  else None.

Definition normalised_lines (response : string) : list string :=
  (fun line => lower (strip line)) <$> split newline response.

Definition last_rule_verdict (response : string) : string * Z :=
  from_option id ("unknown", 50)
    (last (omap keyword_rule (normalised_lines response))).

(** No line speaks of an incorrect implementation. *)
Definition no_incorrect_implementation (response : string) : Prop :=
  forall line, line ∈ normalised_lines response ->
    ~ (contains "incorrect" line = true
       /\ contains "implementation" line = true).

(** *** The scores that enter the grade

    One entry per section: the score of the LLM verdict when the section is
    implemented and the verdict has one, 0 when it is not implemented. *)
Definition llm_scores (evaluate : Evaluation.Implementation -> Py.pyval)
    (sections : list (string * Evaluation.Implementation)) : list Py.pyval :=
  sections ≫= (fun section =>
    if Py.truthy (Py.PyStr (Evaluation.code section.2)) then
      match Py.get (evaluate section.2) "score" with
      | Py.PyNone => []
      | score => [score]
      end
    else [Py.PyInt 0]).

Definition arithmetic_mean (numbers : list Z) : Q :=
  match numbers with
  | [] => 0%Q
  | _ => (Evaluation.sum_Z numbers # Pos.of_nat (length numbers))%Q
  end.

(** The verdict is a dict that names a comparison result. *)
Definition has_comparison_result (verdict : Py.pyval) : Prop :=
  exists entries result,
    verdict = Py.PyDict entries
    /\ Py.assoc "comparison_result" entries = Some result.

(** The verdict that the report records for a section. *)
Definition recorded_verdict (evaluate : Evaluation.Implementation -> Py.pyval)
    (section : string * Evaluation.Implementation) : Py.pyval :=
  if Py.truthy (Py.PyStr (Evaluation.code section.2)) then evaluate section.2
  else Evaluation.llm_evaluation Evaluation.not_implemented.

(** [np.mean] on a non-empty list of Python [int]s and [bool]s. *)
Definition averages_integers (np_mean : list Py.pyval -> option Q) : Prop :=
  forall values numbers,
    values <> [] ->
    mapM Evaluation.as_number values = Some numbers ->
    np_mean values = Some (arithmetic_mean numbers).

End Spec.

(** ** Replay without the early exit

    The state of the replay loop and the effect of one iteration on it, and
    the replay of a whole list of cells: what [execute_cells_until] computes
    when no cell is beyond the target. *)

Module Replay.
Import PyStr NotebookExecutor.

(** The dict the loop holds, the printed warnings, the memory. *)
Abbreviation State Value Store :=
  (Addr * list string * Memory Value Store)%type.

Section WithInterpreter.
Context {Value Store : Type}.
Variable exec : string -> Addr -> Memory Value Store -> ExecResult Value Store.

(** The items of the dict the loop holds. *)
Definition namespace (s : State Value Store) : gmap string Value :=
  dict_items s.2 s.1.1.

(** The state in which the loop starts: the dict of [_initialize_context]
    has just been created. *)
Definition start (runtime_object : string -> Value)
    (m : Memory Value Store) : State Value Store :=
  let '(context, m0) := new_dict (_initialize_context runtime_object) m in
  (context, [], m0).

(** One iteration of the loop on the cell at position [i]. *)
Definition cell_step (i : nat) (cell : CodeCell) (s : State Value Store)
  : State Value Store :=
  let '(context, out, m) := s in
  let cell_source := strip (source cell) in
  if skipped cell_source then s
  else
    let '(context', error, m') :=
      _safe_cell_execution exec cell_source context i m in
    (context',
     match error with
     | Some e =>
         out ++ ["Warning: Cell " +:+ pretty i +:+ " execution failed: " +:+ e]
     | None => out
     end,
     m').

Fixpoint run_cells (i : nat) (cs : list CodeCell) (s : State Value Store)
  : State Value Store :=
  match cs with
  | [] => s
  | cell :: cs' => run_cells (S i) cs' (cell_step i cell s)
  end.

(** The outcome of [exec] on the cell in state [s]: the cell runs on a copy
    of the dict the loop holds. *)
Definition exec_cell (cell : CodeCell) (s : State Value Store)
  : ExecResult Value Store :=
  let '(local_context, m1) := dict_copy s.1.1 s.2 in
  exec (strip (source cell)) local_context m1.

(** The cell is executed in state [s] and raises, leaving the memory
    [m']. *)
Definition cell_fails (cell : CodeCell) (s : State Value Store)
    (m' : Memory Value Store) : Prop :=
  skipped (strip (source cell)) = false
  /\ exists msg traceback, exec_cell cell s = Raised msg traceback m'.

(** The cell is executed in state [s] and runs to its end, leaving the
    items [ns] in the dict it ran on. *)
Definition cell_returns (cell : CodeCell) (s : State Value Store)
    (ns : gmap string Value) : Prop :=
  skipped (strip (source cell)) = false
  /\ exists m', exec_cell cell s = Returned m'
                /\ dict_items m' (dict_copy s.1.1 s.2).1 = ns.

End WithInterpreter.

End Replay.

(** ** A small interpreter for straight-line cells

    An instance of the interpreter on which the executor can be run on
    concrete notebooks.  A value is the text of a literal or a function.  A
    cell is run line by line on its globals dict:
    - [NAME = TEXT] binds the name in the globals;
    - [def F sets NAME = TEXT] binds [F] to a function whose body is
      [global NAME; NAME = TEXT]; as in Python, the globals of the function
      are the dict in which the [def] was executed;
    - [call F] calls the function bound to [F], which binds [NAME] in the
      globals of the function;
    - [note TEXT] appends the text to the store;
    - [raise] raises, and so does any other line. *)

Module Toy.
Import PyStr NotebookExecutor.

Inductive value :=
| Text (text : string)
| Function (globals : Addr) (name text : string).

Fixpoint cut (sep s : string) : option (string * string) :=
  match strip_prefix sep s with
  | Some rest => Some (EmptyString, rest)
  | None =>
      match s with
      | EmptyString => None
      | String c s' =>
          match cut sep s' with
          | Some (a, b) => Some (String c a, b)
          | None => None
          end
      end
  end.

Abbreviation memory := (Memory value (list string)).

Definition note (text : string) (m : memory) : memory :=
  {| dicts := dicts m; store := store m ++ [text] |}.

(** [def F sets NAME = TEXT], after the [def]. *)
Definition define (globals : Addr) (rest : string) (m : memory)
  : option memory :=
  match cut " sets " rest with
  | Some (f, assignment) =>
      match cut " = " assignment with
      | Some (name, text) =>
          Some (dict_set globals f (Function globals name text) m)
      | None => None
      end
  | None => None
  end.

(** [call F] *)
Definition call (globals : Addr) (f : string) (m : memory) : option memory :=
  match dict_items m globals !! f with
  | Some (Function function_globals name text) =>
      Some (dict_set function_globals name (Text text) m)
  | _ => None
  end.

Fixpoint run_lines (lines : list string) (globals : Addr) (m : memory)
  : ExecResult value (list string) :=
  match lines with
  | [] => Returned m
  | line :: lines' =>
      match strip_prefix "note " line with
      | Some text => run_lines lines' globals (note text m)
      | None =>
          if String.eqb line "raise" then Raised "raise" line m
          else
            match strip_prefix "def " line with
            | Some rest =>
                match define globals rest m with
                | Some m' => run_lines lines' globals m'
                | None => Raised "invalid syntax" line m
                end
            | None =>
                match strip_prefix "call " line with
                | Some f =>
                    match call globals f m with
                    | Some m' => run_lines lines' globals m'
                    | None => Raised "not callable" line m
                    end
                | None =>
                    match cut " = " line with
                    | Some (name, text) =>
                        run_lines lines' globals
                          (dict_set globals name (Text text) m)
                    | None => Raised "invalid syntax" line m
                    end
                end
            end
      end
  end.

Definition exec (cell_code : string) (globals : Addr) (m : memory)
  : ExecResult value (list string) :=
  run_lines (split newline cell_code) globals m.

(** Every injected name is bound to a value that shows its name. *)
Definition runtime_object (name : string) : value :=
  Text ("<" +:+ name +:+ ">").

Definition code_cell (src : string) : RawCell :=
  {| raw_cell_type := Some "code"; raw_source := Some (SourceText src) |}.

Definition markdown_cell (src : string) : RawCell :=
  {| raw_cell_type := Some "markdown"; raw_source := Some (SourceText src) |}.

(** [copy.deepcopy], which hands back texts and functions as they are, and
    the two attribute tests for these values. *)
Definition deepcopy (v : value) : option value := Some v.
Definition no_attr (v : value) : bool := false.

(** A memory without any dict. *)
Definition empty_memory : memory := {| dicts := ∅; store := [] |}.

(** Three code cells around a markdown cell; the second code cell leaves a
    note in the store and then raises. *)
Definition demo_notebook : list RawCell :=
  [ code_cell "x = 1";
    markdown_cell "# Scores";
    code_cell ("note started" +:+ String newline "raise");
    code_cell "y = 2" ].

(** The first cell binds [x] and defines [bump], whose body is
    [global x; x = 2]; the second cell calls [bump] and then raises; the
    third cell binds [y]. *)
Definition aliasing_notebook : list RawCell :=
  [ code_cell ("x = 1" +:+ String newline "def bump sets x = 2");
    code_cell ("call bump" +:+ String newline "raise");
    code_cell "y = 3" ].

End Toy.

(** ** Concrete services and a concrete evaluator

    Instances on which the LLM layer can be run: providers that always fail
    or always answer with a fixed text, a JSON decoder that knows the empty
    object only, the identity in place of the digest, and a prompt that just
    names the function. *)

Module Scenario.
Import PyStr Py LLM.

Definition always_fails (role : Role) (prompt : string) (history : list Event)
  : HttpOutcome := HttpError "timed out".

Definition answers (text : string) (role : Role) (prompt : string)
    (history : list Event) : HttpOutcome := HttpOk (PyStr text).

Definition json_loads (text : string) : option pyval :=
  if String.eqb (strip text) "{}" then Some (PyDict []) else None.

Definition md5_hexdigest (content : string) : string := content.

Definition create_code_comparison_prompt
    (student_code reference_code function_name : string)
    (context : option pyval) : string :=
  "Compare " +:+ function_name.

Definition isoformat (t : Z) : string := pretty t.

Definition new_limiter : RateLimiter :=
  {| requests_per_minute := 60; burst_limit := 10; requests := [] |}.

Definition evaluator : Evaluator :=
  {| cache := Some {| cache_dir := ".llm_cache"; ttl_seconds := 3600 |};
     rate_limiter := new_limiter;
     primary_provider := {| kind := Ollama; retry_attempts := 3 |};
     fallback_provider := Some {| kind := OpenAI; retry_attempts := 2 |} |}.

Definition start : World := {| clock := 0; files := ∅; trace := [] |}.

(** A limiter for two requests per minute after calls at 0 s and 1 s. *)
Definition busy_limiter : RateLimiter :=
  {| requests_per_minute := 2; burst_limit := 1;
     requests := [0; seconds 1] |}.

Definition at_time (t : Z) : World :=
  {| clock := t; files := ∅; trace := [] |}.

(** A stand-in for [np.mean] on concrete runs: it averages a list of
    Python [int]s and [bool]s and raises on every other list. *)
Definition mean_of_integers (values : list pyval) : option Q :=
  match mapM Evaluation.as_number values with
  | Some numbers =>
      Some (Evaluation.sum_Z numbers # Pos.of_nat (length numbers))%Q
  | None => None
  end.

End Scenario.

(** ** [notebook_executor.py]: the remaining methods *)

Module ExecutorApi.
Import PyStr NotebookExecutor.

(** [sep.join(parts)] *)
Fixpoint join_with (sep : string) (parts : list string) : string :=
  match parts with
  | [] => EmptyString
  | [part] => part
  | part :: rest => part +:+ sep +:+ join_with sep rest
  end.

(** [repr] of a tuple of ints, as an f-string prints a shape. *)
Definition tuple_repr (t : list Z) : string :=
  match t with
  | [] => "()"
  | [x] => "(" +:+ pretty x +:+ ",)"
  | _ => "(" +:+ join_with ", " (pretty <$> t) +:+ ")"
  end.

(** The table of [validate_tensor_shapes]: the variables of a stage with
    their expected shapes, in the order of the dict. *)
Definition expected_shapes (stage : string) : option (list (string * list Z)) :=
  if String.eqb stage "after_embeddings" then
    Some [("embeddings", [1; 6; 512])]
  else if String.eqb stage "after_qkv" then
    Some [("Q", [1; 6; 64]); ("K", [1; 6; 64]); ("V", [1; 6; 64])]
  else if String.eqb stage "after_scores" then
    Some [("attention_scores", [1; 6; 6])]
  else if String.eqb stage "after_weights" then
    Some [("attention_weights", [1; 6; 6])]
  else if String.eqb stage "after_aggregation" then
    Some [("attended_output", [1; 6; 64])]
  else None.

(** The dict that [validate_tensor_shapes] returns. *)
Record ShapeReport := {
  stage : string;
  valid : bool;
  errors : list string
}.

(** How [get_context_for_function] can fail: its own [ValueError], or the
    [TypeError] of [copy.deepcopy] on a cache hit. *)
Inductive ContextError :=
| ValueError (msg : string)
| TypeError.

Section WithInterpreter.
Context {Value Store : Type}.
Variable exec : string -> Addr -> Memory Value Store -> ExecResult Value Store.
Variable deepcopy : Value -> option Value.
Variable has_module_attr : Value -> bool.
Variable is_module : Value -> bool.
Variable runtime_object : string -> Value.

(** [tuple(var.shape)] when the value has a [shape] attribute. *)
Variable shape_of : Value -> option (list Z).

(** [get_context_for_function] *)
Definition get_context_for_function (self : Executor Value)
    (function_name : string) (m : Memory Value Store)
  : (ContextError + gmap string Value) * Executor Value * list string
    * Memory Value Store :=
  let cell_index := find_function_cell self function_name in
  if cell_index =? -1 then
    (inl (ValueError ("Function '" +:+ function_name
                      +:+ "' not found in notebook")),
     self, [], m)
  else
    match execute_cells_until exec deepcopy has_module_attr is_module
            runtime_object self cell_index m with
    | (Some context, self', out, m') => (inr context, self', out, m')
    | (None, self', out, m') => (inl TypeError, self', out, m')
    end.

(** [get_function_with_context]: [None] when the [TypeError] escapes. *)
Definition get_function_with_context (self : Executor Value)
    (function_name : string) (m : Memory Value Store)
  : option (option Value * gmap string Value)
    * Executor Value * list string * Memory Value Store :=
  match get_context_for_function self function_name m with
  | (inr context, self', out, m') =>
      (Some (context !! function_name, context), self', out, m')
  | (inl (ValueError msg), self', out, m') =>
      (Some (None, ∅), self',
       out ++ ["Error getting function context: " +:+ msg], m')
  | (inl TypeError, self', out, m') => (None, self', out, m')
  end.

(** One iteration of the loop of [validate_tensor_shapes]: the error that
    the variable adds, if any. *)
Definition shape_error (context : gmap string Value) (var_name : string)
    (expected_shape : list Z) : option string :=
  match context !! var_name with
  | None => Some ("Missing variable: " +:+ var_name)
  | Some var =>
      match shape_of var with
      | Some actual_shape =>
          if bool_decide (actual_shape <> expected_shape) then
            Some (var_name +:+ " shape mismatch: expected "
                  +:+ tuple_repr expected_shape +:+ ", got "
                  +:+ tuple_repr actual_shape)
          else None
      | None => Some (var_name +:+ " is not a tensor")
      end
  end.

Fixpoint shape_loop (context : gmap string Value)
    (expected : list (string * list Z)) (report : ShapeReport) : ShapeReport :=
  match expected with
  | [] => report
  | (var_name, expected_shape) :: rest =>
      shape_loop context rest
        match shape_error context var_name expected_shape with
        | Some e =>
            {| stage := stage report; valid := false;
               errors := errors report ++ [e] |}
        | None => report
        end
  end.

(** [validate_tensor_shapes] *)
Definition validate_tensor_shapes (context : gmap string Value)
    (stage_name : string) : ShapeReport :=
  let validation_results :=
    {| stage := stage_name; valid := true; errors := [] |} in
  match expected_shapes stage_name with
  | None =>
      {| stage := stage_name; valid := false;
         errors := ["Unknown stage: " +:+ stage_name] |}
  | Some expected => shape_loop context expected validation_results
  end.

End WithInterpreter.

End ExecutorApi.

(** ** [llm_integration.py]: construction and the other requests *)

Module LLMApi.
Import PyStr Py LLM.

(** [RateLimiter.__init__] *)
Definition RateLimiter_init (requests_per_minute burst_limit : Z)
  : RateLimiter :=
  {| requests_per_minute := requests_per_minute;
     burst_limit := burst_limit;
     requests := [] |}.

(** The entry of [config["llm_providers"]] for one provider, and the parts
    of the configuration file that the constructor reads. *)
Record ProviderConfig := {
  provider : string;
  config_retry_attempts : Z
}.

Record Config := {
  cache_enabled : bool;
  config_cache_dir : string;
  config_ttl_seconds : Z;
  config_requests_per_minute : Z;
  config_burst_limit : Z;
  primary : ProviderConfig;
  fallback : ProviderConfig
}.

(** [OpenAIProvider.__init__]; [api_key] is
    [os.environ.get('OPENAI_API_KEY')]. *)
Definition OpenAIProvider_init (api_key : option string)
    (config : ProviderConfig) : Result Provider :=
  match api_key with
  | Some key =>
      if truthy (PyStr key) then
        Ok {| kind := OpenAI; retry_attempts := config_retry_attempts config |}
      else
        Raise (LLMProviderError
                 "OpenAI API key not found in environment variables")
  | None =>
      Raise (LLMProviderError
               "OpenAI API key not found in environment variables")
  end.

(** [_init_provider] *)
Definition _init_provider (api_key : option string)
    (provider_config : ProviderConfig) : Result Provider :=
  if String.eqb (provider provider_config) "ollama" then
    Ok {| kind := Ollama;
          retry_attempts := config_retry_attempts provider_config |}
  else if String.eqb (provider provider_config) "openai" then
    OpenAIProvider_init api_key provider_config
  else
    Raise (LLMProviderError
             ("Unknown provider: " +:+ provider provider_config)).

(** [_setup_cache] *)
Definition _setup_cache (config : Config) : option ResponseCache :=
  if cache_enabled config then
    Some {| cache_dir := config_cache_dir config;
            ttl_seconds := config_ttl_seconds config |}
  else None.

(** [LLMEvaluator.__init__], from the loaded configuration. *)
Definition LLMEvaluator_init (api_key : option string) (config : Config)
  : Result Evaluator :=
  let cache := _setup_cache config in
  let rate_limiter :=
    RateLimiter_init (config_requests_per_minute config)
      (config_burst_limit config) in
  match _init_provider api_key (primary config) with
  | Raise e => Raise e
  | Ok primary_provider =>
      match _init_provider api_key (fallback config) with
      | Ok fallback_provider =>
          Ok {| cache := cache; rate_limiter := rate_limiter;
                primary_provider := primary_provider;
                fallback_provider := Some fallback_provider |}
      | Raise (LLMProviderError _) =>
          Ok {| cache := cache; rate_limiter := rate_limiter;
                primary_provider := primary_provider;
                fallback_provider := None |}
      | Raise e => Raise e
      end
  end.

(** [_parse_test_cases_response] *)
Definition _parse_test_cases_response (response : pyval) : pyval :=
  PyList [ PyDict [ ("description", PyStr "Basic test case");
                    ("input", PyStr "sample_input");
                    ("expected", PyStr "sample_output") ] ].

Section WithServices.
Variable http_post : Role -> string -> list Event -> HttpOutcome.
Variable create_concept_explanation_prompt : string -> string -> string.
Variable create_test_generation_prompt : string -> string -> string.

(** The provider loop of [explain_concept] and [generate_test_cases]: the
    response of the first provider whose [generate_response] returns,
    [None] when the loop ends without one. *)
Fixpoint first_response (providers : list (Role * option Provider))
    (prompt : string) (w : World) : option pyval * World :=
  match providers with
  | [] => (None, w)
  | (_, None) :: rest => first_response rest prompt w
  | (role, Some provider) :: rest =>
      match generate_response http_post role provider prompt w with
      | (Ok response, w1) => (Some response, w1)
      | (Raise _, w1) => first_response rest prompt w1
      end
  end.

(** [explain_concept] *)
Definition explain_concept (self : Evaluator) (concept student_level : string)
    (w : World) : Result pyval * World :=
  let prompt := create_concept_explanation_prompt concept student_level in
  match first_response
          [ (Primary, Some (primary_provider self));
            (Fallback, fallback_provider self) ] prompt w with
  | (Some response, w1) => (Ok response, w1)
  | (None, w1) =>
      (Raise (LLMProviderError
                "All LLM providers failed to generate concept explanation"),
       w1)
  end.

(** [generate_test_cases] *)
Definition generate_test_cases (self : Evaluator)
    (function_name function_signature : string) (w : World)
  : Result pyval * World :=
  let prompt :=
    create_test_generation_prompt function_name function_signature in
  match first_response
          [ (Primary, Some (primary_provider self));
            (Fallback, fallback_provider self) ] prompt w with
  | (Some response, w1) => (Ok (_parse_test_cases_response response), w1)
  | (None, w1) =>
      (Raise (LLMProviderError
                "All LLM providers failed to generate test cases"),
       w1)
  end.

End WithServices.

End LLMApi.

(* ================================================================= *)
(** * Properties *)

(** ** The primitives on small inputs *)

Example strip_example :
  PyStr.strip "  def f(x):  " = "def f(x):".
Proof. reflexivity. Qed.

Example split_example :
  PyStr.split PyStr.newline ("a" +:+ String PyStr.newline "b") = ["a"; "b"].
Proof. reflexivity. Qed.

Example search_def_indented :
  Re.search_def "aggregate_values"
    ("x = 1" +:+ String PyStr.newline "  def  aggregate_values (w, V):")
  = true.
Proof. reflexivity. Qed.

Example search_def_longer_name :
  Re.search_def "aggregate" "def aggregate_values(w, V):" = false.
Proof. reflexivity. Qed.

(** A no-break space (U+00A0) is whitespace for the pattern. *)
Example search_def_no_break_space :
  Re.search_def "f" ("def" +:+ String (ascii_of_nat 160) "f(x): pass") = true.
Proof. reflexivity. Qed.

Example search_def_comment :
  Re.search_def "f" "# def f(x):" = false.
Proof. reflexivity. Qed.

Example letter_grade_example :
  Evaluation._score_to_letter_grade (145 # 3) = "F"
  /\ Evaluation._score_to_letter_grade 90 = "A".
Proof. split; reflexivity. Qed.

(** ** Strings *)

Section StringFacts.
Import PyStr.

Lemma app_cons (c : ascii) (s t : string) :
  String c s +:+ t = String c (s +:+ t).
Proof. reflexivity. Qed.

Lemma app_empty_l (s : string) : EmptyString +:+ s = s.
Proof. reflexivity. Qed.

Lemma app_empty_r (s : string) : s +:+ EmptyString = s.
Proof. induction s as [|c s IH]; [reflexivity|]. by rewrite app_cons, IH. Qed.

Lemma app_assoc_str (s t u : string) : (s +:+ t) +:+ u = s +:+ (t +:+ u).
Proof.
  induction s as [|c s IH]; [reflexivity|]. by rewrite !app_cons, IH.
Qed.

Lemma strip_prefix_spec (p s r : string) :
  strip_prefix p s = Some r <-> s = p +:+ r.
Proof.
  revert s. induction p as [|a p IH]; intros s; simpl.
  - rewrite app_empty_l. split; congruence.
  - rewrite app_cons. destruct s as [|b s]; [split; discriminate|].
    destruct (Ascii.eqb_spec a b) as [->|Hne].
    + rewrite IH. split; congruence.
    + split; [discriminate|]. intros [=]. congruence.
Qed.

Lemma all_space_app (s t : string) :
  all_space (s +:+ t) = all_space s && all_space t.
Proof.
  induction s as [|c s IH]; [reflexivity|].
  rewrite app_cons. simpl. by rewrite IH, andb_assoc.
Qed.

End StringFacts.

(** ** The matcher decides the documented pattern *)

Section PatternFacts.
Import PyStr Re.

Lemma spaces_then_spec (k : string -> bool) (s : string) :
  spaces_then k s = true <->
  exists ws rest, s = ws +:+ rest /\ all_space ws = true /\ k rest = true.
Proof.
  induction s as [|c s IH]; simpl.
  - rewrite orb_false_r. split.
    + intros Hk. by exists EmptyString, EmptyString.
    + intros (ws & rest & Heq & _ & Hk).
      destruct ws; [|discriminate]. by rewrite app_empty_l in Heq; subst.
  - rewrite orb_true_iff, andb_true_iff, IH. split.
    + intros [Hk|[Hc (ws & rest & -> & Hws & Hk)]].
      * by exists EmptyString, (String c s).
      * exists (String c ws), rest. simpl. by rewrite Hc, Hws.
    + intros (ws & rest & Heq & Hws & Hk). destruct ws as [|d ws].
      * left. by rewrite app_empty_l in Heq; subst.
      * right. rewrite app_cons in Heq. injection Heq as -> ->.
        simpl in Hws. apply andb_true_iff in Hws as [Hd Hws]. eauto 6.
Qed.

Lemma spaces1_then_spec (k : string -> bool) (s : string) :
  spaces1_then k s = true <->
  exists ws rest,
    s = ws +:+ rest /\ all_space ws = true /\ ws <> EmptyString /\ k rest = true.
Proof.
  destruct s as [|c s]; simpl.
  - split; [discriminate|]. intros (ws & rest & Heq & _ & Hne & _).
    destruct ws; [done|discriminate].
  - rewrite andb_true_iff, spaces_then_spec. split.
    + intros [Hc (ws & rest & -> & Hws & Hk)].
      exists (String c ws), rest. simpl. by rewrite Hc, Hws.
    + intros (ws & rest & Heq & Hws & Hne & Hk). destruct ws as [|d ws]; [done|].
      rewrite app_cons in Heq. injection Heq as -> ->.
      simpl in Hws. apply andb_true_iff in Hws as [Hd Hws]. eauto 6.
Qed.

Lemma lit_then_spec (p : string) (k : string -> bool) (s : string) :
  lit_then p k s = true <-> exists rest, s = p +:+ rest /\ k rest = true.
Proof.
  unfold lit_then. destruct (strip_prefix p s) as [r|] eqn:Hp.
  - apply strip_prefix_spec in Hp as ->. split; [eauto|].
    intros (rest & Heq & Hk). by apply (inj _) in Heq as ->.
  - split; [discriminate|]. intros (rest & Heq & _).
    apply strip_prefix_spec in Heq. congruence.
Qed.

Lemma def_header_at_spec (name s : string) :
  def_header_at name s = true <->
  exists ws1 ws2 ws3 after,
    s = ws1 +:+ "def" +:+ ws2 +:+ name +:+ ws3 +:+ "(" +:+ after
    /\ all_space ws1 = true
    /\ all_space ws2 = true /\ ws2 <> EmptyString
    /\ all_space ws3 = true.
Proof.
  unfold def_header_at. rewrite spaces_then_spec. split.
  - intros (ws1 & r1 & -> & H1 & Hk).
    apply lit_then_spec in Hk as (r2 & -> & Hk).
    apply spaces1_then_spec in Hk as (ws2 & r3 & -> & H2 & Hne & Hk).
    apply lit_then_spec in Hk as (r4 & -> & Hk).
    apply spaces_then_spec in Hk as (ws3 & r5 & -> & H3 & Hk).
    apply lit_then_spec in Hk as (after & -> & _).
    by exists ws1, ws2, ws3, after.
  - intros (ws1 & ws2 & ws3 & after & -> & H1 & H2 & Hne & H3).
    exists ws1, ("def" +:+ ws2 +:+ name +:+ ws3 +:+ "(" +:+ after).
    split; [done|]. split; [done|].
    apply lit_then_spec. eexists; split; [done|].
    apply spaces1_then_spec. exists ws2. eexists. split; [done|].
    split; [done|]. split; [done|].
    apply lit_then_spec. eexists; split; [done|].
    apply spaces_then_spec. exists ws3. eexists. split; [done|]. split; [done|].
    apply lit_then_spec. by exists after.
Qed.

Lemma search_from_spec (bol : bool) (name s : string) :
  search_from bol name s = true <->
  exists before rest,
    s = before +:+ rest
    /\ (before = EmptyString /\ bol = true
        \/ exists p, before = p +:+ String newline EmptyString)
    /\ def_header_at name rest = true.
Proof.
  revert bol. induction s as [|c s IH]; intros bol; simpl.
  - rewrite orb_false_r, andb_true_iff. split.
    + intros [-> Hh]. exists EmptyString, EmptyString. eauto.
    + intros (before & rest & Heq & Hb & Hh).
      destruct before; [|discriminate].
      rewrite app_empty_l in Heq; subst rest.
      destruct Hb as [[_ ->]|[p Hp]]; [done|]. by destruct p.
  - rewrite orb_true_iff, andb_true_iff, IH. split.
    + intros [[-> Hh]|(before & rest & -> & Hb & Hh)].
      * exists EmptyString, (String c s). eauto.
      * exists (String c before), rest. split; [done|]. split; [|done].
        right. destruct Hb as [[-> Hc]|[p ->]].
        -- exists EmptyString. apply Ascii.eqb_eq in Hc as ->. done.
        -- by exists (String c p).
    + intros (before & rest & Heq & Hb & Hh). destruct before as [|d before].
      * left. rewrite app_empty_l in Heq; subst rest.
        destruct Hb as [[_ ->]|[p Hp]]; [done|]. by destruct p.
      * right. rewrite app_cons in Heq. injection Heq as -> ->.
        exists before, rest. split; [done|]. split; [|done].
        destruct Hb as [[? _]|[p Hp]]; [done|].
        destruct p as [|e p].
        -- rewrite app_empty_l in Hp. injection Hp as -> ->.
           left. split; [done|]. by apply Ascii.eqb_eq.
        -- rewrite app_cons in Hp. injection Hp as -> ->. right. by exists p.
Qed.

Lemma search_def_spec (name src : string) :
  search_def name src = true <-> Spec.has_def_header name src.
Proof.
  unfold search_def, Spec.has_def_header, Spec.at_line_start.
  rewrite search_from_spec. split.
  - intros (before & rest & -> & Hb & Hh).
    apply def_header_at_spec in Hh as (ws1 & ws2 & ws3 & after & -> & ?).
    exists before, ws1, ws2, ws3, after. split; [done|]. split; [|done].
    destruct Hb as [[-> _]|?]; auto.
  - intros (before & ws1 & ws2 & ws3 & after & -> & Hb & ?).
    exists before. eexists. split; [done|]. split.
    + destruct Hb as [->|?]; auto.
    + apply def_header_at_spec. by exists ws1, ws2, ws3, after.
Qed.

End PatternFacts.

(** ** The cell store and the function locator *)

Section LocatorFacts.
Import PyStr NotebookExecutor Spec.
Context {Value : Type}.

Lemma ordinals_from_tail base c l :
  ordinals_from base (c :: l) -> ordinals_from (S base) l.
Proof.
  intros H k c' Hk. specialize (H (S k) c' Hk). lia.
Qed.

Lemma extract_loop_ordinals idx raw acc :
  ordinals_from 0 acc -> ordinals_from 0 (extract_loop idx raw acc).
Proof.
  revert idx acc. induction raw as [|cell raw IH]; intros idx acc Hacc; simpl.
  - done.
  - case_bool_decide; [|by apply IH]. apply IH.
    intros k c Hk. apply lookup_app_Some in Hk as [Hk|[Hlen Hk]].
    + by apply Hacc.
    + apply list_lookup_singleton_Some in Hk as [Hk <-]. simpl. lia.
Qed.

Lemma extract_code_cells_ordinals (notebook_cells : list RawCell) :
  ordinals_from 0 (_extract_code_cells notebook_cells).
Proof. apply extract_loop_ordinals. intros k c Hk. done. Qed.

Lemma extract_loop_sources idx raw acc :
  source <$> extract_loop idx raw acc =
  (source <$> acc) ++
  (source_text <$> filter (fun cell => raw_cell_type cell = Some "code") raw).
Proof.
  revert idx acc. induction raw as [|cell raw IH]; intros idx acc; simpl.
  - by rewrite app_nil_r.
  - rewrite filter_cons. case_bool_decide as Hc.
    + rewrite decide_True by done. rewrite IH, fmap_app, <- app_assoc. done.
    + rewrite decide_False by done. apply IH.
Qed.

(** The cells of the executor are the code cells of the document, in order. *)
Lemma extract_code_cells_sources (notebook_cells : list RawCell) :
  source <$> _extract_code_cells notebook_cells =
  source_text <$>
    filter (fun cell => raw_cell_type cell = Some "code") notebook_cells.
Proof. apply extract_loop_sources. Qed.

Lemma find_loop_cases (name : string) (base : nat) (l : list CodeCell) :
  ordinals_from base l ->
  (find_loop name l = -1
   /\ forall c, c ∈ l -> Re.search_def name (source c) = false)
  \/ (exists k c,
        l !! k = Some c
        /\ Re.search_def name (source c) = true
        /\ (forall j c', (j < k)%nat -> l !! j = Some c' ->
                         Re.search_def name (source c') = false)
        /\ find_loop name l = Z.of_nat (base + k)).
Proof.
  revert base. induction l as [|c l IH]; intros base Hord; simpl.
  - left. split; [done|]. intros c Hc. by apply elem_of_nil in Hc.
  - destruct (Re.search_def name (source c)) eqn:Hs.
    + right. exists 0%nat, c. split; [done|]. split; [done|]. split; [lia|].
      by rewrite (Hord 0%nat c eq_refl).
    + destruct (IH (S base) (ordinals_from_tail _ _ _ Hord))
        as [[Hm Hall]|(k & c' & Hk & Hc' & Hlt & Hf)].
      * left. split; [done|]. intros d [->|Hd]%elem_of_cons; auto.
      * right. exists (S k), c'. split; [done|]. split; [done|]. split.
        -- intros [|j] d Hj Hd; simpl in Hd; [congruence|]. apply (Hlt j); [lia|done].
        -- rewrite Hf. f_equal. lia.
Qed.

(** The locator on the cell store: the ordinal of the first entry whose
    source holds the header, -1 when there is none. *)
Lemma find_function_cell_store
    (notebook_cells : list RawCell) (function_name : string) :
  let self : Executor Value := init notebook_cells in
  (forall k : nat,
     find_function_cell self function_name = Z.of_nat k <->
     (exists c, cells self !! k = Some c
                /\ has_def_header function_name (source c))
     /\ (forall j c', (j < k)%nat -> cells self !! j = Some c' ->
                      ~ has_def_header function_name (source c')))
  /\ (find_function_cell self function_name = -1 <->
      forall c, c ∈ cells self -> ~ has_def_header function_name (source c))
  /\ (find_function_cell self function_name = -1
      \/ exists k : nat,
           (k < length (cells self))%nat
           /\ find_function_cell self function_name = Z.of_nat k).
Proof.
  intros self. unfold find_function_cell.
  pose proof (extract_code_cells_ordinals notebook_cells) as Hord.
  change (_extract_code_cells notebook_cells) with (cells self) in Hord.
  destruct (find_loop_cases function_name 0 (cells self) Hord)
    as [[Hm Hall]|(k & c & Hk & Hc & Hlt & Hf)].
  - rewrite Hm. split; [|split].
    + intros k. split; [lia|]. intros [(c & Hc & Hh) _]. exfalso.
      apply search_def_spec in Hh.
      rewrite (Hall c) in Hh; [done|]. by eapply list_elem_of_lookup_2.
    + split; [|done]. intros _ c Hc Hh.
      apply search_def_spec in Hh. by rewrite (Hall c Hc) in Hh.
    + by left.
  - change (Z.of_nat (0 + k)) with (Z.of_nat k) in Hf.
    rewrite Hf. split; [|split].
    + intros k'. split.
      * intros <-%Nat2Z.inj. split.
        -- exists c. split; [done|]. by apply search_def_spec.
        -- intros j c' Hj Hc' Hh%search_def_spec. by rewrite (Hlt j c') in Hh.
      * intros [(d & Hd & Hh) Hfirst]. f_equal.
        destruct (Nat.lt_trichotomy k k') as [Hlt'|[->|Hgt]]; [|done|].
        -- exfalso. apply (Hfirst k c Hlt' Hk). by apply search_def_spec.
        -- exfalso. apply search_def_spec in Hh. by rewrite (Hlt k' d) in Hh.
    + split; [lia|]. intros Hnone. exfalso.
      apply (Hnone c); [by eapply list_elem_of_lookup_2|].
      by apply search_def_spec.
    + right. exists k. split; [|done]. by eapply lookup_lt_Some.
Qed.

(** The entry at a position of the cell store carries the source of the
    code cell at that position among the code cells of the document. *)
Lemma cell_store_lookup (notebook_cells : list RawCell) (k : nat) :
  source <$> _extract_code_cells notebook_cells !! k
  = source_text <$>
      filter (fun cell => raw_cell_type cell = Some "code") notebook_cells
      !! k.
Proof.
  rewrite <- !list_lookup_fmap. by rewrite extract_code_cells_sources.
Qed.

(** C5.  For every notebook and function name, [find_function_cell] returns
    the position, among the code cells of the notebook in document order,
    of the first code cell whose source holds a definition header for
    exactly that name (line start, optional whitespace, [def], whitespace,
    the name, optional whitespace, an opening parenthesis), and -1 when no
    code cell does; a redefinition in a later cell is never returned.  The
    answer depends on the cells only, so asking again, also after the
    execution cache has changed, gives the same ordinal. *)
Theorem find_function_cell_first_definition
    (notebook_cells : list RawCell) (function_name : string) :
  let self : Executor Value := init notebook_cells in
  let code_cells :=
    filter (fun cell => raw_cell_type cell = Some "code") notebook_cells in
  let defines (cell : RawCell) :=
    has_def_header function_name (source_text cell) in
  (forall k : nat,
     find_function_cell self function_name = Z.of_nat k <->
     (exists cell, code_cells !! k = Some cell /\ defines cell)
     /\ (forall j cell', (j < k)%nat -> code_cells !! j = Some cell' ->
                         ~ defines cell'))
  /\ (find_function_cell self function_name = -1 <->
      forall cell, cell ∈ code_cells -> ~ defines cell)
  /\ (find_function_cell self function_name = -1
      \/ exists k : nat,
           (k < length code_cells)%nat
           /\ find_function_cell self function_name = Z.of_nat k)
  /\ (forall other : Executor Value,
        cells other = cells self ->
        find_function_cell other function_name
        = find_function_cell self function_name).
Proof.
  intros self code_cells defines.
  destruct (find_function_cell_store notebook_cells function_name)
    as (Hk & Hnone & Hrange).
  fold self in Hk, Hnone, Hrange.
  assert (forall k c, cells self !! k = Some c ->
            exists cell, code_cells !! k = Some cell
                         /\ source_text cell = source c) as Hto.
  { intros k c Hc. pose proof (cell_store_lookup notebook_cells k) as Hl.
    change (_extract_code_cells notebook_cells) with (cells self) in Hl.
    fold code_cells in Hl. rewrite Hc in Hl.
    destruct (code_cells !! k) as [cell|]; [|done].
    exists cell. split; [done|]. by injection Hl. }
  assert (forall k cell, code_cells !! k = Some cell ->
            exists c, cells self !! k = Some c
                      /\ source_text cell = source c) as Hfrom.
  { intros k cell Hcell. pose proof (cell_store_lookup notebook_cells k) as Hl.
    change (_extract_code_cells notebook_cells) with (cells self) in Hl.
    fold code_cells in Hl. rewrite Hcell in Hl.
    destruct (cells self !! k) as [c|]; [|done].
    exists c. split; [done|]. by injection Hl. }
  assert (length (cells self) = length code_cells) as Hlen.
  { pose proof (extract_code_cells_sources notebook_cells) as Hs.
    apply (f_equal length) in Hs. by rewrite !length_fmap in Hs. }
  split_and!.
  - intros k. rewrite Hk. unfold defines. split.
    + intros [(c & Hc & Hh) Hfirst]. split.
      * destruct (Hto k c Hc) as (cell & Hcell & Hsrc).
        exists cell. by rewrite Hsrc.
      * intros j cell' Hj Hcell'.
        destruct (Hfrom j cell' Hcell') as (c' & Hc' & Hsrc).
        rewrite Hsrc. by apply (Hfirst j).
    + intros [(cell & Hcell & Hh) Hfirst]. split.
      * destruct (Hfrom k cell Hcell) as (c & Hc & Hsrc).
        exists c. by rewrite <- Hsrc.
      * intros j c' Hj Hc'.
        destruct (Hto j c' Hc') as (cell' & Hcell' & Hsrc).
        rewrite <- Hsrc. by apply (Hfirst j).
  - rewrite Hnone. unfold defines. split.
    + intros Hall cell [j Hcell]%list_elem_of_lookup_1.
      destruct (Hfrom j cell Hcell) as (c & Hc & Hsrc).
      rewrite Hsrc. apply Hall. by eapply list_elem_of_lookup_2.
    + intros Hall c [j Hc]%list_elem_of_lookup_1.
      destruct (Hto j c Hc) as (cell & Hcell & Hsrc).
      rewrite <- Hsrc. apply Hall. by eapply list_elem_of_lookup_2.
  - destruct Hrange as [?|(k & Hlt & ?)]; [by left|].
    right. exists k. split; [lia|done].
  - unfold find_function_cell. by intros other ->.
Qed.

End LocatorFacts.

(** ** The replay loop *)

Section ReplayFacts.
Import PyStr NotebookExecutor Spec Replay.
Context {Value Store : Type}.
Variable exec : string -> Addr -> Memory Value Store -> ExecResult Value Store.
Variable deepcopy : Value -> option Value.
Variable has_module_attr : Value -> bool.
Variable is_module : Value -> bool.
Variable runtime_object : string -> Value.

(** A new dict has the items it was created with, and creating it leaves
    the dicts that were there as they are. *)
Lemma dict_items_new_dict (items : gmap string Value)
    (m : Memory Value Store) :
  dict_items (new_dict items m).2 (new_dict items m).1 = items.
Proof. unfold dict_items, new_dict. simpl. by rewrite lookup_insert_eq. Qed.

Lemma new_dict_fresh (items : gmap string Value) (m : Memory Value Store) :
  dicts m !! (new_dict items m).1 = None.
Proof. unfold new_dict. simpl. apply not_elem_of_dom, is_fresh. Qed.

Lemma dict_items_new_dict_other (items : gmap string Value)
    (m : Memory Value Store) (a : Addr) :
  is_Some (dicts m !! a) ->
  dict_items (new_dict items m).2 a = dict_items m a.
Proof.
  intros Ha. unfold dict_items. cbn [new_dict snd dicts].
  rewrite lookup_insert_ne; [done|]. intros <-.
  pose proof (new_dict_fresh items m) as Hf. cbn [new_dict fst] in Hf.
  rewrite Hf in Ha. by destruct Ha.
Qed.

Lemma namespace_start (m : Memory Value Store) :
  namespace (start runtime_object m) = _initialize_context runtime_object.
Proof. unfold namespace, start. simpl. apply dict_items_new_dict. Qed.

Lemma run_cells_app (i : nat) (a b : list CodeCell) (s : State Value Store) :
  run_cells exec i (a ++ b) s
  = run_cells exec (i + length a) b (run_cells exec i a s).
Proof.
  revert i s. induction a as [|c a IH]; intros i s; simpl.
  - by rewrite Nat.add_0_r.
  - rewrite IH. f_equal. lia.
Qed.

(** The loop stops at the first cell beyond the target: it replays the
    cells whose ordinal is at most the target, and no other. *)
Lemma replay_loop_run_cells (i : nat) (cs : list CodeCell) (target : Z)
    (context : Addr) (out : list string) (m : Memory Value Store) :
  ordinals_from i cs ->
  replay_loop exec i cs target context out m
  = run_cells exec i (take (Z.to_nat (target + 1 - Z.of_nat i)) cs)
      (context, out, m).
Proof.
  revert i context out m.
  induction cs as [|c cs IH]; intros i context out m Hord; simpl.
  - by rewrite take_nil.
  - assert (original_index c = i) as Hi.
    { rewrite (Hord 0%nat c eq_refl). lia. }
    rewrite Hi. case_bool_decide as Hgt.
    + replace (Z.to_nat (target + 1 - Z.of_nat i)) with 0%nat by lia. done.
    + replace (Z.to_nat (target + 1 - Z.of_nat i))
        with (S (Z.to_nat (target + 1 - Z.of_nat (S i)))) by lia.
      simpl. pose proof (ordinals_from_tail _ _ _ Hord) as Hord'.
      destruct (skipped (strip (source c))) eqn:Hskip.
      * by rewrite IH.
      * destruct (_safe_cell_execution exec (strip (source c)) context i m)
          as [[context' error] m'] eqn:Hsafe.
        by rewrite IH.
Qed.

(** A miss, with everything the call returns and leaves behind. *)
Lemma execute_cells_until_miss_state (notebook_cells : list RawCell)
    (cache : gmap Z (gmap string Value)) (target : Z)
    (m : Memory Value Store) :
  cache !! target = None ->
  let self := {| cells := _extract_code_cells notebook_cells;
                 execution_cache := cache |} in
  let final :=
    run_cells exec 0 (take (Z.to_nat (target + 1)) (cells self))
      (start runtime_object m) in
  execute_cells_until exec deepcopy has_module_attr is_module runtime_object
    self target m
  = (Some (namespace final),
     {| cells := cells self;
        execution_cache :=
          <[target := cacheable_context deepcopy has_module_attr is_module
                        (namespace final)]> cache |},
     final.1.2, final.2).
Proof.
  intros Hmiss self final. unfold final, execute_cells_until, start. simpl.
  rewrite Hmiss.
  destruct (new_dict (_initialize_context runtime_object) m)
    as [context m0].
  rewrite replay_loop_run_cells by apply extract_code_cells_ordinals.
  rewrite Z.sub_0_r.
  by destruct (run_cells _ _ _ _) as [[context' out] m'].
Qed.

(** On a cache miss the call returns the namespace of that replay. *)
Lemma execute_cells_until_miss (notebook_cells : list RawCell)
    (cache : gmap Z (gmap string Value)) (target : Z)
    (m : Memory Value Store) :
  cache !! target = None ->
  let self := {| cells := _extract_code_cells notebook_cells;
                 execution_cache := cache |} in
  (execute_cells_until exec deepcopy has_module_attr is_module runtime_object
     self target m).1.1.1
  = Some (namespace
            (run_cells exec 0 (take (Z.to_nat (target + 1)) (cells self))
               (start runtime_object m))).
Proof.
  intros Hmiss self. unfold self.
  by rewrite execute_cells_until_miss_state.
Qed.

(** On a cache hit nothing is executed: the call hands back a deep copy of
    the stored snapshot.  A miss stores the snapshot of what it returns. *)
Lemma execute_cells_until_hit (self : Executor Value) (target : Z)
    (cached : gmap string Value) (m : Memory Value Store) :
  execution_cache self !! target = Some cached ->
  execute_cells_until exec deepcopy has_module_attr is_module runtime_object
    self target m
  = (deepcopy_dict deepcopy cached, self, [], m).
Proof. intros H. unfold execute_cells_until. by rewrite H. Qed.

Lemma execute_cells_until_stores (self : Executor Value) (target : Z)
    (m : Memory Value Store) :
  execution_cache self !! target = None ->
  let call :=
    execute_cells_until exec deepcopy has_module_attr is_module runtime_object
      self target m in
  exists context,
    call.1.1.1 = Some context
    /\ cells call.1.1.2 = cells self
    /\ execution_cache call.1.1.2 !! target
       = Some (cacheable_context deepcopy has_module_attr is_module context).
Proof.
  intros H call. unfold call, execute_cells_until. rewrite H.
  destruct (new_dict _ m) as [context m0].
  destruct (replay_loop _ _ _ _ _ _ _) as [[context' out] m'].
  eexists. simpl. by rewrite lookup_insert_eq.
Qed.

(** When the cell raises, the call hands back the dict it was given, the
    very object, in the memory that the cell has left. *)
Lemma safe_cell_execution_raised (cell_code : string) (context : Addr)
    (i : nat) (m m' : Memory Value Store) (msg traceback : string) :
  exec cell_code (dict_copy context m).1 (dict_copy context m).2
  = Raised msg traceback m' ->
  exists e, _safe_cell_execution exec cell_code context i m
            = (context, Some e, m').
Proof.
  intros H. unfold _safe_cell_execution.
  destruct (dict_copy context m) as [local_context m1]. simpl in H.
  rewrite H. eauto.
Qed.

Lemma cell_step_raised (k : nat) (cell : CodeCell) (s : State Value Store)
    (m' : Memory Value Store) :
  cell_fails exec cell s m' ->
  exists w, cell_step exec k cell s = (s.1.1, s.1.2 ++ [w], m').
Proof.
  intros [Hskip (msg & tb & Hex)]. destruct s as [[context out] m].
  unfold exec_cell in Hex. cbn [fst snd] in *.
  unfold cell_step. rewrite Hskip.
  destruct (safe_cell_execution_raised (strip (source cell)) context k m m'
              msg tb) as [e He].
  { by destruct (dict_copy context m). }
  rewrite He. eauto.
Qed.

Lemma cell_step_returns (i : nat) (cell : CodeCell) (s : State Value Store)
    (ns : gmap string Value) :
  cell_returns exec cell s ns -> namespace (cell_step exec i cell s) = ns.
Proof.
  intros [Hskip (m' & Hex & Hns)]. destruct s as [[context out] m].
  unfold exec_cell in Hex. cbn [fst snd] in *.
  unfold cell_step, _safe_cell_execution. rewrite Hskip.
  destruct (dict_copy context m) as [local_context m1]. cbn [fst snd] in *.
  by rewrite Hex.
Qed.

(** C2 (amended).  On a cache miss [execute_cells_until] replays exactly the
    cells whose ordinal is at most the target.  For a target at or beyond the
    last code cell that is the replay of the entire notebook; for a negative
    target no cell is executed and the initial context is returned. *)
Theorem execute_cells_until_out_of_range
    (notebook_cells : list RawCell) (cache : gmap Z (gmap string Value))
    (target : Z) (m : Memory Value Store) :
  let self := {| cells := _extract_code_cells notebook_cells;
                 execution_cache := cache |} in
  let result :=
    (execute_cells_until exec deepcopy has_module_attr is_module
       runtime_object self target m).1.1.1 in
  cache !! target = None ->
  (Z.of_nat (length (cells self)) - 1 <= target ->
   result = Some (namespace
                    (run_cells exec 0 (cells self)
                       (start runtime_object m))))
  /\ (target < 0 -> result = Some (_initialize_context runtime_object)).
Proof.
  intros self result Hmiss. unfold result, self.
  rewrite execute_cells_until_miss by done. split; intros Ht.
  - rewrite take_ge; [done|]. simpl in *. lia.
  - replace (Z.to_nat (target + 1)) with 0%nat by lia.
    rewrite take_0. cbn [run_cells]. by rewrite namespace_start.
Qed.

End ReplayFacts.

(** ** The executor on concrete notebooks *)

Section ExecutorExamples.
Import PyStr NotebookExecutor Spec Replay.

Lemma execute_cells_until_out_of_range_witness :
  let self : Executor Toy.value := init Toy.demo_notebook in
  let run target :=
    (execute_cells_until Toy.exec Toy.deepcopy Toy.no_attr Toy.no_attr
       Toy.runtime_object self target Toy.empty_memory).1.1.1 in
  run 7 = Some (namespace
                  (run_cells Toy.exec 0 (cells self)
                     (start Toy.runtime_object Toy.empty_memory)))
  /\ run (-3) = Some (_initialize_context Toy.runtime_object).
Proof.
  intros self run. split.
  - apply (execute_cells_until_out_of_range Toy.exec Toy.deepcopy Toy.no_attr
             Toy.no_attr Toy.runtime_object Toy.demo_notebook ∅ 7
             Toy.empty_memory).
    + reflexivity.
    + vm_compute. discriminate.
  - apply (execute_cells_until_out_of_range Toy.exec Toy.deepcopy Toy.no_attr
             Toy.no_attr Toy.runtime_object Toy.demo_notebook ∅ (-3)
             Toy.empty_memory).
    + reflexivity.
    + reflexivity.
Defined.

(** A cell that raises without touching the dict the loop holds: the
    bindings made before it are in the result, and so is the binding of
    the cell after it. *)
Example failed_cell_plain :
  let self : Executor Toy.value := init Toy.demo_notebook in
  let result :=
    (execute_cells_until Toy.exec Toy.deepcopy Toy.no_attr Toy.no_attr
       Toy.runtime_object self 2 Toy.empty_memory).1.1.1 in
  (result ≫= lookup "x") = Some (Toy.Text "1")
  /\ (result ≫= lookup "y") = Some (Toy.Text "2").
Proof. by vm_compute. Qed.

(** The effects of a failed cell outside the namespace stay: the note left
    by the second code cell before it raised is in the store at the end,
    and the loop has printed one warning for that cell. *)
Example failed_cell_store_effects_persist :
  let self : Executor Toy.value := init Toy.demo_notebook in
  let run :=
    execute_cells_until Toy.exec Toy.deepcopy Toy.no_attr Toy.no_attr
      Toy.runtime_object self 2 Toy.empty_memory in
  store run.2 = ["started"] /\ length run.1.2 = 1%nat.
Proof. by vm_compute. Qed.

(** C1.  The namespace is not left as it was by every cell that raises.
    In the notebook below the first cell binds [x] to 1 and defines [bump],
    whose body is [global x; x = 2]; it runs to its end on a copy of the
    initial dict, and that copy, which is the globals of [bump], is the dict
    the loop holds from then on.  The second cell runs on a copy of it,
    calls [bump] and raises.  [_safe_cell_execution] reports the error and
    hands back the dict it was given, the very object, in which [bump] has
    rebound [x]: after the failed cell the namespace binds [x] to 2, and so
    does the result of [execute_cells_until 2], which has lost the binding
    that the successful first cell established and has the binding of the
    third cell. *)
Theorem failed_cell_rebinds_through_function_globals :
  let self : Executor Toy.value := init Toy.aliasing_notebook in
  let begin := start Toy.runtime_object Toy.empty_memory in
  let before := run_cells Toy.exec 0 (take 1 (cells self)) begin in
  let failing :=
    {| index := 1;
       source := "call bump" +:+ String newline "raise";
       original_index := 1 |} in
  let outcome :=
    _safe_cell_execution Toy.exec (strip (source failing)) before.1.1 1
      before.2 in
  let result :=
    (execute_cells_until Toy.exec Toy.deepcopy Toy.no_attr Toy.no_attr
       Toy.runtime_object self 2 Toy.empty_memory).1.1.1 in
  cells self !! 1%nat = Some failing
  /\ namespace before !! "x" = Some (Toy.Text "1")
  /\ outcome.1.2
     = Some ("Cell 1 execution failed: raise"
             +:+ String newline "Traceback: raise")
  /\ outcome.1.1 = before.1.1
  /\ dict_items outcome.2 outcome.1.1 !! "x" = Some (Toy.Text "2")
  /\ dict_items outcome.2 outcome.1.1 <> namespace before
  /\ (result ≫= lookup "x") = Some (Toy.Text "2")
  /\ (result ≫= lookup "y") = Some (Toy.Text "3").
Proof.
  intros self begin before failing outcome result. split_and!.
  - by vm_compute.
  - by vm_compute.
  - by vm_compute.
  - by vm_compute.
  - by vm_compute.
  - intros H. apply (f_equal (fun ns : gmap string Toy.value => ns !! "x")) in H.
    vm_compute in H. discriminate.
  - by vm_compute.
  - by vm_compute.
Qed.

(** A negative target against C2 as stated: the call returns the initial
    context, in which [x] is unbound, while the replay of the entire notebook
    binds [x]. *)
Lemma negative_target_replays_nothing :
  let self : Executor Toy.value := init [Toy.code_cell "x = 1"] in
  let result :=
    (execute_cells_until Toy.exec Toy.deepcopy Toy.no_attr Toy.no_attr
       Toy.runtime_object self (-1) Toy.empty_memory).1.1.1 in
  let whole :=
    namespace (run_cells Toy.exec 0 (cells self)
                 (start Toy.runtime_object Toy.empty_memory)) in
  whole !! "x" = Some (Toy.Text "1")
  /\ result = Some (_initialize_context Toy.runtime_object)
  /\ _initialize_context Toy.runtime_object !! "x" = None
  /\ result <> Some whole.
Proof.
  intros self result whole. split; [reflexivity|]. split; [reflexivity|].
  split; [reflexivity|]. intros H.
  apply (f_equal (fun o : option (gmap string Toy.value) =>
                    o ≫= (fun m => m !! "x"))) in H.
  vm_compute in H. discriminate.
Qed.

End ExecutorExamples.

(** ** The context validator *)

Section ValidatorFacts.
Import NotebookExecutor.
Context {Value : Type}.

Lemma requirements_NoDup (function_name : string) :
  NoDup (requirements function_name).
Proof.
  unfold requirements.
  repeat case_match;
    refine (bool_decide_unpack _ _); vm_compute; exact I.
Qed.

(** C6 (amended).  [validate_context_for_function] returns [(ok, missing)]
    where [missing] holds exactly the required names that are absent from
    the namespace, each once, in the order of the requirements table (which
    is not alphabetical), and [ok] is true exactly when [missing] is empty,
    that is, when every required name is bound.  The function only reads the
    namespace. *)
Theorem validate_context_reports_missing
    (function_name : string) (context : gmap string Value) :
  let ok := (validate_context_for_function function_name context).1 in
  let missing := (validate_context_for_function function_name context).2 in
  (forall var, var ∈ missing <->
               var ∈ requirements function_name /\ context !! var = None)
  /\ sublist missing (requirements function_name)
  /\ NoDup missing
  /\ (ok = true <-> missing = [])
  /\ (ok = true <->
      forall var, var ∈ requirements function_name -> is_Some (context !! var)).
Proof.
  intros ok missing. unfold ok, missing, validate_context_for_function. simpl.
  set (required := requirements function_name).
  set (absent := filter (fun var => context !! var = None) required).
  assert (bool_decide (length absent = 0%nat) = true <-> absent = []) as Hok.
  { rewrite bool_decide_eq_true. split.
    - by destruct absent.
    - by intros ->. }
  split; [|split; [|split; [|split]]].
  - intros var. unfold absent. rewrite list_elem_of_filter. tauto.
  - apply sublist_filter.
  - apply NoDup_filter, requirements_NoDup.
  - exact Hok.
  - rewrite Hok. unfold absent. split.
    + intros Hnil var Hvar. destruct (context !! var) eqn:Hc; [eauto|].
      exfalso. eapply (not_elem_of_nil var). rewrite <- Hnil.
      apply list_elem_of_filter. done.
    + intros Hall. apply elem_of_nil_inv. intros var Hvar.
      apply list_elem_of_filter in Hvar as [Hnone Hvar].
      destruct (Hall var Hvar) as [v Hv]. congruence.
Qed.

(** Against C6 as stated: with nothing bound, the missing names of the
    projection stage come back in table order, [torch] before [nn]. *)
Lemma missing_variables_in_table_order :
  let result :=
    validate_context_for_function (Value := unit) "create_qkv_projections" ∅ in
  result = (false, ["embeddings"; "torch"; "nn"])
  /\ ~ Sorted String.le result.2
  /\ merge_sort String.le result.2 = ["embeddings"; "nn"; "torch"].
Proof.
  intros result. split; [reflexivity|]. split; [|reflexivity].
  intros Hsorted. vm_compute in Hsorted.
  inversion Hsorted as [|? ? Htail _]. inversion Htail as [|? ? _ Hhd].
  inversion Hhd as [|? ? Hle]. vm_compute in Hle. exact Hle.
Qed.

End ValidatorFacts.

(** ** The rate limiter *)

Section RateLimiterFacts.
Import Py LLM Spec.

Lemma in_window_later (t T x : Z) :
  t <= T -> in_window T x = true -> in_window t x = true.
Proof. unfold in_window. rewrite !Z.ltb_lt. lia. Qed.

Lemma filter_window_later (t T : Z) (l : list Z) :
  t <= T ->
  List.filter (in_window T) (List.filter (in_window t) l)
  = List.filter (in_window T) l.
Proof.
  intros Hle. induction l as [|x l IH]; simpl; [done|].
  destruct (in_window t x) eqn:Ht; simpl.
  - by rewrite IH.
  - destruct (in_window T x) eqn:HT; [|done].
    apply (in_window_later t T x Hle) in HT. congruence.
Qed.

Lemma wait_if_needed_cases (rl : RateLimiter) (w : World) :
  let pruned := List.filter (in_window (clock w)) (requests rl) in
  Z.of_nat (length pruned) <= requests_per_minute rl ->
  1 <= requests_per_minute rl ->
  exists rl' w',
    wait_if_needed rl w = (None, rl', w')
    /\ requests_per_minute rl' = requests_per_minute rl
    /\ requests rl' = pruned ++ [clock w]
    /\ (Z.of_nat (length pruned) < requests_per_minute rl -> w' = w)
    /\ (Z.of_nat (length pruned) >= requests_per_minute rl ->
        exists first rest,
          pruned = first :: rest
          /\ w' = sleep (first + minute - clock w) w
          /\ 0 < first + minute - clock w).
Proof.
  intros pruned Hle Hpos. unfold wait_if_needed. fold pruned.
  destruct (Z.of_nat (length pruned) >=? requests_per_minute rl) eqn:Hfull.
  - apply Z.geb_le in Hfull.
    destruct pruned as [|first rest] eqn:Hp; [simpl in Hfull; lia|].
    assert (in_window (clock w) first = true) as Hin.
    { assert (In first pruned) as Hin by (rewrite Hp; by left).
      by apply List.filter_In in Hin as [_ ?]. }
    unfold in_window in Hin. apply Z.ltb_lt in Hin.
    assert ((minute - (clock w - first) >? 0) = true) as -> by lia.
    eexists _, _. split; [done|]. split; [done|]. split; [by rewrite <- Hp|].
    split; [lia|]. intros _. exists first, rest. split; [done|].
    split; [f_equal; lia|lia].
  - rewrite Z.geb_leb in Hfull. apply Z.leb_gt in Hfull.
    eexists _, _. split; [done|]. split; [done|]. split; [done|].
    split; [done|lia].
Qed.

Lemma limiter_invariant (rpm burst : Z) (rl : RateLimiter) (t : Z) :
  1 <= rpm ->
  limiter_at rpm burst rl t ->
  requests_per_minute rl = rpm /\ window_bounded rpm rl t.
Proof.
  intros Hpos Hreach. induction Hreach as [t|rl t d _ [Hrpm IH] Hd
                                          |rl rl' w w' _ [Hrpm IH] Hcall].
  - split; [done|]. intros T _. simpl. lia.
  - split; [done|]. intros T HT. apply IH. lia.
  - pose proof (IH (clock w) (Z.le_refl _)) as Hnow.
    destruct (wait_if_needed_cases rl w) as
      (rl2 & w2 & Hcall2 & Hrpm2 & Hreq & Hfree & Hfull); [lia..|].
    rewrite Hcall in Hcall2. injection Hcall2 as <- <-.
    split; [lia|]. intros T HT. rewrite Hreq, List.filter_app, length_app.
    set (pruned := List.filter (in_window (clock w)) (requests rl)) in *.
    assert (length (List.filter (in_window T) [clock w]) <= 1)%nat as Hone.
    { simpl. destruct (in_window T (clock w)); simpl; lia. }
    destruct (Z_lt_ge_dec (Z.of_nat (length pruned)) rpm) as [Hlt|Hge].
    + pose proof (List.filter_length_le (in_window T) pruned). lia.
    + destruct Hfull as (first & rest & Hp & Hw' & Hsleep); [lia|].
      rewrite Hw' in HT. simpl in HT.
      assert (in_window T first = false) as Hout.
      { unfold in_window. apply Z.ltb_ge. lia. }
      assert (List.filter (in_window T) pruned = List.filter (in_window T) rest)
        as -> by (by rewrite Hp; cbn [List.filter]; rewrite Hout).
      pose proof (List.filter_length_le (in_window T) rest).
      rewrite Hp in Hnow. cbn [length] in Hnow. lia.
Qed.

(** A call on a limiter that allows at least one request per minute: the
    timestamps that remain after pruning are at most [requests_per_minute];
    the call returns, sleeping exactly when the window is full and then
    until its oldest timestamp has left the window. *)
Lemma limiter_call_bounded
    (rpm burst : Z) (rl : RateLimiter) (w : World) :
  1 <= rpm ->
  limiter_at rpm burst rl (clock w) ->
  let pruned := List.filter (in_window (clock w)) (requests rl) in
  Z.of_nat (length pruned) <= rpm
  /\ exists rl' w',
       wait_if_needed rl w = (None, rl', w')
       /\ requests rl' = pruned ++ [clock w]
       /\ clock w <= clock w'
       /\ Z.of_nat (length (List.filter (in_window (clock w')) pruned)) < rpm
       /\ (Z.of_nat (length pruned) < rpm -> w' = w)
       /\ (Z.of_nat (length pruned) = rpm ->
           exists first,
             head pruned = Some first
             /\ clock w' = first + minute
             /\ trace w' = trace w ++ [Slept (first + minute - clock w)])
       /\ limiter_at rpm burst rl' (clock w').
Proof.
  intros Hpos Hreach pruned.
  destruct (limiter_invariant rpm burst rl (clock w) Hpos Hreach) as [Hrpm Hinv].
  pose proof (Hinv (clock w) (Z.le_refl _)) as Hnow.
  destruct (wait_if_needed_cases rl w) as
    (rl' & w' & Hcall & Hrpm' & Hreq & Hfree & Hfull); [lia..|].
  fold pruned in Hnow, Hreq, Hfree, Hfull. rewrite Hrpm in Hfree, Hfull.
  split; [done|].
  exists rl', w'. split; [done|]. split; [done|].
  assert (limiter_at rpm burst rl' (clock w')) as Hreach'
    by (by eapply limiter_call).
  destruct (Z_lt_ge_dec (Z.of_nat (length pruned)) rpm) as [Hlt|Hge].
  - rewrite (Hfree Hlt). split; [lia|].
    pose proof (List.filter_length_le (in_window (clock w)) pruned).
    split; [lia|]. split; [done|]. split; [lia|]. by rewrite <- (Hfree Hlt).
  - destruct (Hfull Hge) as (first & rest & Hp & Hw' & Hsleep).
    rewrite Hw'. simpl. split; [lia|]. split.
    + rewrite Hp. cbn [List.filter].
      assert (in_window (clock w + (first + minute - clock w)) first = false)
        as ->.
      { unfold in_window. apply Z.ltb_ge. lia. }
      pose proof (List.filter_length_le
                    (in_window (clock w + (first + minute - clock w))) rest).
      rewrite Hp in Hnow. cbn [length] in Hnow. lia.
    + split; [lia|]. split; [|by rewrite Hw' in Hreach'].
      intros _. exists first. rewrite Hp. split; [done|]. split; [lia|done].
Qed.

End RateLimiterFacts.

(** ** Providers: retries, order, total failure *)

Section ProviderFacts.
Import PyStr Py LLM Spec.
Variable http_post : Role -> string -> list Event -> HttpOutcome.
Variable json_loads : string -> option pyval.
Variable md5_hexdigest : string -> string.
Variable create_code_comparison_prompt :
  string -> string -> string -> option pyval -> string.
Variable isoformat : Z -> string.

Abbreviation all_requests_fail := (Spec.all_requests_fail http_post).

Lemma attempts_S (role : Role) (prompt : string) (attempt : Z) (j : nat) :
  (1 <= j)%nat ->
  attempts role prompt attempt (S j)
  = Post role prompt :: Slept (seconds (2 ^ attempt))
      :: attempts role prompt (attempt + 1) j.
Proof. intros Hj. destruct j; [lia|done]. Qed.

(** One provider attempt makes at most [remaining] requests, separated by
    the back-off sleeps; it raises only after all of them, and it raises
    when all of them fail. *)
Lemma attempt_loop_trace (role : Role) (self : Provider) (prompt : string)
    (remaining : nat) (attempt : Z) (w : World) :
  remaining = 0%nat \/ attempt + Z.of_nat remaining = retry_attempts self ->
  exists j : nat,
    let result := (attempt_loop http_post role self prompt remaining attempt w).1 in
    let w' := (attempt_loop http_post role self prompt remaining attempt w).2 in
    (j <= remaining)%nat
    /\ ((1 <= remaining)%nat -> (1 <= j)%nat)
    /\ trace w' = trace w ++ attempts role prompt attempt j
    /\ files w' = files w
    /\ (forall e, result = Raise e -> j = remaining)
    /\ (remaining = 0%nat -> result = Ok PyNone)
    /\ (all_requests_fail prompt ->
        j = remaining
        /\ ((1 <= remaining)%nat -> exists e, result = Raise e)).
Proof.
  revert attempt w. induction remaining as [|r IH]; intros attempt w Hinv.
  - exists 0%nat. simpl. rewrite app_nil_r.
    split_and!; try done; try lia.
  - destruct Hinv as [?|Hinv]; [done|]. cbn [attempt_loop].
    destruct (http_post role prompt (trace w)) as [text|msg] eqn:Hpost.
    + exists 1%nat. simpl. split_and!; try done; try lia.
      intros Hfail. destruct (Hfail role (trace w)) as [msg Hmsg]. congruence.
    + destruct (attempt =? retry_attempts self - 1) eqn:Hlast.
      * apply Z.eqb_eq in Hlast. assert (r = 0%nat) as -> by lia.
        exists 1%nat. simpl. split_and!; try done; try lia.
        intros _. split; [done|]. eauto.
      * apply Z.eqb_neq in Hlast. assert (1 <= r)%nat as Hr by lia.
        set (w1 := sleep _ _).
        destruct (IH (attempt + 1) w1) as
          (j & Hj & Hj1 & Htrace & Hfiles & Hraise & _ & Hall); [lia|].
        exists (S j). cbn zeta in *.
        split_and!; try done; try lia.
        { rewrite Htrace, attempts_S by auto. unfold w1. simpl.
          by rewrite <- !app_assoc. }
        { intros e He. by rewrite (Hraise e He). }
        { intros Hfail. destruct (Hall Hfail) as [-> Hex].
          split; [done|]. intros _. by apply Hex. }
Qed.

Lemma generate_response_trace (role : Role) (self : Provider) (prompt : string)
    (w : World) :
  let n := Z.to_nat (retry_attempts self) in
  let result := (generate_response http_post role self prompt w).1 in
  let w' := (generate_response http_post role self prompt w).2 in
  exists j : nat,
    (j <= n)%nat
    /\ trace w' = trace w ++ attempts role prompt 0 j
    /\ files w' = files w
    /\ (forall e, result = Raise e -> j = n)
    /\ (n = 0%nat -> result = Ok PyNone)
    /\ (all_requests_fail prompt ->
        j = n /\ ((1 <= n)%nat -> exists e, result = Raise e)).
Proof.
  intros n result w'. unfold result, w', generate_response. fold n.
  destruct (attempt_loop_trace role self prompt n 0 w) as
    (j & Hj & _ & Htrace & Hfiles & Hraise & Hnone & Hall).
  { unfold n. lia. }
  exists j. auto 10.
Qed.

Lemma parse_comparison_response_str (text function_name : string) (now : Z) :
  exists result,
    _parse_comparison_response json_loads isoformat (PyStr text) function_name now
    = Ok result.
Proof.
  unfold _parse_comparison_response.
  destruct (startswith "{" (strip text)); [destruct (json_loads text)|]; eauto.
Qed.

Lemma try_providers_step (role : Role) (provider : Provider)
    (rest : list (Role * option Provider)) (prompt function_name : string)
    (w : World) :
  try_providers http_post json_loads isoformat ((role, Some provider) :: rest)
    prompt function_name w
  = match generate_response http_post role provider prompt w with
    | (Ok response, w1) =>
        match _parse_comparison_response json_loads isoformat response
                function_name (clock w1) with
        | Ok result => (Some result, w1)
        | Raise _ =>
            try_providers http_post json_loads isoformat rest
              prompt function_name w1
        end
    | (Raise _, w1) =>
        try_providers http_post json_loads isoformat rest
          prompt function_name w1
    end.
Proof. reflexivity. Qed.

Lemma fallback_only_trace (fallback : option Provider)
    (prompt function_name : string) (w : World) :
  let out := try_providers http_post json_loads isoformat
               [(Fallback, fallback)] prompt function_name w in
  exists j2 : nat,
    (j2 <= request_budget fallback)%nat
    /\ trace out.2 = trace w ++ attempts Fallback prompt 0 j2
    /\ files out.2 = files w
    /\ (all_requests_fail prompt ->
        j2 = request_budget fallback /\ out.1 = None).
Proof.
  cbn [try_providers]. destruct fallback as [p2|].
  - destruct (generate_response_trace Fallback p2 prompt w)
      as (j2 & Hj2 & Htr2 & Hf2 & Hraise2 & Hnone2 & Hall2).
    destruct (generate_response http_post Fallback p2 prompt w)
      as [r2 w2] eqn:Hgen2. cbn [fst snd] in *.
    exists j2. cbn zeta. split; [done|].
    destruct r2 as [resp2|e2].
    + destruct (_parse_comparison_response json_loads isoformat resp2
                  function_name (clock w2)) as [res2|e2] eqn:Hparse2;
        cbn [fst snd]; (split; [done|]); (split; [done|]).
      * intros Hfail. destruct (Hall2 Hfail) as [-> Hex]. exfalso.
        destruct (decide (1 <= Z.to_nat (retry_attempts p2))%nat) as [Hge|Hlt].
        -- destruct (Hex Hge) as [e He]. done.
        -- assert (resp2 = PyNone) as ->
             by (injection (Hnone2 ltac:(lia)); done).
           done.
      * intros Hfail. by destruct (Hall2 Hfail) as [-> _].
    + cbn [fst snd]. split; [done|]. split; [done|].
      intros Hfail. by destruct (Hall2 Hfail) as [-> _].
  - exists 0%nat. cbn [fst snd request_budget attempts].
    rewrite app_nil_r. auto.
Qed.

(** The provider loop: the requests to the primary provider come first,
    those to the fallback provider after them; a string answer of the
    primary provider ends the loop; when every request fails both providers
    use all their attempts and the loop ends without a result. *)
Lemma try_providers_trace (self : Evaluator) (prompt function_name : string)
    (w : World) :
  let primary :=
    generate_response http_post Primary (primary_provider self) prompt w in
  let out :=
    try_providers http_post json_loads isoformat (providers_of self)
      prompt function_name w in
  exists j1 j2 : nat,
    (j1 <= request_budget (Some (primary_provider self)))%nat
    /\ (j2 <= request_budget (fallback_provider self))%nat
    /\ trace out.2 = trace w ++ attempts Primary prompt 0 j1
                            ++ attempts Fallback prompt 0 j2
    /\ files out.2 = files w
    /\ (forall text, primary.1 = Ok (PyStr text) ->
        j2 = 0%nat
        /\ out.2 = primary.2
        /\ exists verdict,
             _parse_comparison_response json_loads isoformat (PyStr text)
               function_name (clock primary.2) = Ok verdict
             /\ out.1 = Some verdict)
    /\ (all_requests_fail prompt ->
        j1 = request_budget (Some (primary_provider self))
        /\ j2 = request_budget (fallback_provider self)
        /\ out.1 = None).
Proof.
  intros primary out. unfold out, providers_of.
  rewrite try_providers_step. fold primary.
  destruct (generate_response_trace Primary (primary_provider self) prompt w)
    as (j1 & Hj1 & Htr1 & Hf1 & Hraise1 & Hnone1 & Hall1).
  fold primary in Htr1, Hf1, Hraise1, Hnone1, Hall1.
  destruct primary as [r1 w1] eqn:Hprimary. cbn [fst snd] in *.
  destruct (fallback_only_trace (fallback_provider self) prompt function_name w1)
    as (j2 & Hj2 & Htr2 & Hf2 & Hall2).
  cbn zeta in *.
  destruct r1 as [resp1|e1].
  - destruct (_parse_comparison_response json_loads isoformat resp1
                function_name (clock w1)) as [res1|e1] eqn:Hparse1.
    + exists j1, 0%nat. cbn [fst snd attempts]. rewrite app_nil_r.
      split_and!; try done; try lia.
      * intros text [= ->]. split; [done|]. split; [done|]. eauto.
      * intros Hfail. destruct (Hall1 Hfail) as [-> Hex]. exfalso.
        destruct (decide (1 <= Z.to_nat (retry_attempts (primary_provider self)))%nat)
          as [Hge|Hlt].
        -- destruct (Hex Hge) as [e He]. done.
        -- assert (resp1 = PyNone) as ->
             by (injection (Hnone1 ltac:(lia)); done).
           done.
    + exists j1, j2. split_and!; try done.
      * by rewrite Htr2, Htr1, <- app_assoc.
      * by rewrite Hf2.
      * intros text [= ->].
        destruct (parse_comparison_response_str text function_name (clock w1))
          as [res Hres]. congruence.
      * intros Hfail. destruct (Hall1 Hfail) as [-> _].
        destruct (Hall2 Hfail) as [-> ->]. done.
  - exists j1, j2. split_and!; try done.
    + by rewrite Htr2, Htr1, <- app_assoc.
    + by rewrite Hf2.
    + intros Hfail. destruct (Hall1 Hfail) as [-> _].
      destruct (Hall2 Hfail) as [-> ->]. done.
Qed.

(** C7.  On a cache miss [compare_code] sends its requests to the primary
    provider first and to the fallback provider, when one is configured,
    only after them; each provider is sent at most [retry_attempts]
    requests, with sleeps of 1, 2, 4, ... seconds between them; a string
    answer of the primary provider is parsed and returned without the
    fallback provider being contacted; the only exception raised after the
    provider loop is the "All LLM providers failed" [LLMProviderError], and
    then no verdict is returned and nothing is written to the cache; when
    every request fails, each configured provider uses all its attempts and
    that exception is raised. *)
Theorem compare_code_provider_order
    (self : Evaluator) (student_code reference_code function_name : string)
    (context : option pyval) (limiter : RateLimiter) (w w1 w2 : World) :
  let self1 := with_rate_limiter self limiter in
  let cache_key :=
    _generate_cache_key md5_hexdigest student_code reference_code function_name in
  let prompt :=
    create_code_comparison_prompt student_code reference_code function_name
      context in
  let primary :=
    generate_response http_post Primary (primary_provider self) prompt w2 in
  let call :=
    compare_code http_post json_loads md5_hexdigest create_code_comparison_prompt
      isoformat self student_code reference_code function_name context w in
  wait_if_needed (rate_limiter self) w = (None, limiter, w1) ->
  cache_lookup self1 cache_key w1 = (None, w2) ->
  exists j1 j2 : nat,
    (j1 <= request_budget (Some (primary_provider self)))%nat
    /\ (j2 <= request_budget (fallback_provider self))%nat
    /\ trace call.2 = trace w2 ++ attempts Primary prompt 0 j1
                             ++ attempts Fallback prompt 0 j2
    /\ (forall text, primary.1 = Ok (PyStr text) ->
        j2 = 0%nat
        /\ exists verdict,
             _parse_comparison_response json_loads isoformat (PyStr text)
               function_name (clock primary.2) = Ok verdict
             /\ call.1.1 = Ok verdict)
    /\ (forall e, call.1.1 = Raise e ->
        e = LLMProviderError "All LLM providers failed to generate response"
        /\ files call.2 = files w2)
    /\ (all_requests_fail prompt ->
        j1 = request_budget (Some (primary_provider self))
        /\ j2 = request_budget (fallback_provider self)
        /\ call.1.1
           = Raise (LLMProviderError
                      "All LLM providers failed to generate response")).
Proof.
  intros self1 cache_key prompt primary call Hgate Hmiss.
  unfold call, compare_code. rewrite Hgate. fold self1 cache_key.
  rewrite Hmiss. fold prompt.
  destruct (try_providers_trace self1 prompt function_name w2)
    as (j1 & j2 & Hj1 & Hj2 & Htrace & Hfiles & Hprimary & Hall).
  change (primary_provider self1) with (primary_provider self) in *.
  change (fallback_provider self1) with (fallback_provider self) in *.
  fold primary in Hprimary.
  destruct (try_providers http_post json_loads isoformat (providers_of self1)
              prompt function_name w2) as [[verdict|] w3] eqn:Hloop;
    cbn [fst snd] in *.
  - exists j1, j2. split_and!; try done.
    + by destruct (cache self1).
    + intros text Htext. destruct (Hprimary text Htext)
        as (-> & _ & verdict' & Hparse & [= <-]). eauto.
    + intros Hfail. by destruct (Hall Hfail) as (_ & _ & ?).
  - exists j1, j2. split_and!; try done.
    + intros text Htext. by destruct (Hprimary text Htext)
        as (_ & _ & verdict' & _ & ?).
    + by intros e [= <-].
    + intros Hfail. by destruct (Hall Hfail) as (-> & -> & _).
Qed.

(** *** The response cache *)

Lemma wait_if_needed_world (rl rl' : RateLimiter) (w w' : World)
    (error : option Exn) :
  wait_if_needed rl w = (error, rl', w') ->
  files w' = files w /\ posts w' = posts w.
Proof.
  unfold wait_if_needed. case_match; [case_match|]; intros [= <- <- <-];
    try done.
  case_match; [|done]. unfold posts, sleep. simpl.
  by rewrite List.filter_app, app_nil_r.
Qed.

(** A stored, unexpired, truthy verdict is returned without any request. *)
Lemma compare_code_cache_hit
    (self : Evaluator) (c : ResponseCache)
    (student_code reference_code function_name : string)
    (context : option pyval) (limiter : RateLimiter) (w w1 : World)
    (cache_time : Z) (verdict : pyval) :
  cache self = Some c ->
  wait_if_needed (rate_limiter self) w = (None, limiter, w1) ->
  files w1 !! cache_file c
    (_generate_cache_key md5_hexdigest student_code reference_code function_name)
  = Some (Stored cache_time verdict) ->
  clock w1 - cache_time <= seconds (ttl_seconds c) ->
  truthy verdict = true ->
  compare_code http_post json_loads md5_hexdigest create_code_comparison_prompt
    isoformat self student_code reference_code function_name context w
  = (Ok verdict, with_rate_limiter self limiter, w1).
Proof.
  intros Hcache Hgate Hfile Hfresh Htruthy.
  unfold compare_code. rewrite Hgate. unfold cache_lookup.
  change (cache (with_rate_limiter self limiter)) with (cache self).
  rewrite Hcache. unfold cache_get. rewrite Hfile.
  assert ((clock w1 - cache_time >? seconds (ttl_seconds c)) = false) as ->
    by lia.
  by rewrite Htruthy.
Qed.

(** A call that returns a verdict leaves that verdict in the cache file of
    the triple. *)
Lemma compare_code_stores_verdict
    (self self' : Evaluator) (c : ResponseCache)
    (student_code reference_code function_name : string)
    (context : option pyval) (w w' : World) (verdict : pyval) :
  cache self = Some c ->
  compare_code http_post json_loads md5_hexdigest create_code_comparison_prompt
    isoformat self student_code reference_code function_name context w
  = (Ok verdict, self', w') ->
  cache self' = Some c
  /\ exists cache_time,
       files w' !! cache_file c
         (_generate_cache_key md5_hexdigest student_code reference_code
            function_name)
       = Some (Stored cache_time verdict).
Proof.
  intros Hcache Hcall. unfold compare_code in Hcall.
  destruct (wait_if_needed (rate_limiter self) w) as [[error limiter] w1].
  destruct error as [e|]; [done|].
  unfold cache_lookup in Hcall.
  change (cache (with_rate_limiter self limiter)) with (cache self) in Hcall.
  rewrite Hcache in Hcall. unfold cache_get in Hcall.
  repeat case_match; simplify_eq; (split; [done|]);
    try (eexists; cbn [files cache_set]; by rewrite lookup_insert_eq).
  eauto.
Qed.

(** The round trip for a truthy verdict: after a call has returned it, a
    later call with the same triple, made before the entry expires, returns
    the same verdict and sends no request. *)
Lemma truthy_verdict_round_trip
    (self self1 : Evaluator) (c : ResponseCache)
    (student_code reference_code function_name : string)
    (context context' : option pyval) (w w1 w2 : World) (verdict : pyval)
    (d : Z) (limiter2 : RateLimiter) :
  cache self = Some c ->
  compare_code http_post json_loads md5_hexdigest create_code_comparison_prompt
    isoformat self student_code reference_code function_name context w
  = (Ok verdict, self1, w1) ->
  truthy verdict = true ->
  wait_if_needed (rate_limiter self1) (elapse d w1) = (None, limiter2, w2) ->
  (forall cache_time,
     files w1 !! cache_file c
       (_generate_cache_key md5_hexdigest student_code reference_code
          function_name)
     = Some (Stored cache_time verdict) ->
     clock w2 - cache_time <= seconds (ttl_seconds c)) ->
  compare_code http_post json_loads md5_hexdigest create_code_comparison_prompt
    isoformat self1 student_code reference_code function_name context'
    (elapse d w1)
  = (Ok verdict, with_rate_limiter self1 limiter2, w2)
  /\ posts w2 = posts w1.
Proof.
  intros Hcache Hfirst Htruthy Hgate Hfresh.
  destruct (compare_code_stores_verdict _ _ _ _ _ _ _ _ _ _ Hcache Hfirst)
    as [Hcache1 [cache_time Hfile]].
  destruct (wait_if_needed_world _ _ _ _ _ Hgate) as [Hfiles Hposts].
  split.
  - eapply compare_code_cache_hit; eauto.
    by rewrite Hfiles.
  - by rewrite Hposts.
Qed.

End ProviderFacts.

(** ** The rate gate of [compare_code] *)

Section RateGateFacts.
Import PyStr Py LLM Spec.
Variable http_post : Role -> string -> list Event -> HttpOutcome.
Variable json_loads : string -> option pyval.
Variable md5_hexdigest : string -> string.
Variable create_code_comparison_prompt :
  string -> string -> string -> option pyval -> string.
Variable isoformat : Z -> string.

(** Requests and back-off sleeps only add to the record and never move the
    clock backwards. *)
Lemma attempt_loop_clock (role : Role) (self : Provider) (prompt : string)
    (remaining : nat) (attempt : Z) (w : World) :
  let w' := (attempt_loop http_post role self prompt remaining attempt w).2 in
  clock w <= clock w' /\ exists rest, trace w' = trace w ++ rest.
Proof.
  revert attempt w. induction remaining as [|r IH]; intros attempt w.
  - simpl. split; [lia|]. exists []. by rewrite app_nil_r.
  - cbn [attempt_loop].
    destruct (http_post role prompt (trace w)) as [text|msg].
    + simpl. split; [lia|]. eauto.
    + destruct (attempt =? retry_attempts self - 1).
      * simpl. split; [lia|]. eauto.
      * set (w1 := sleep _ _).
        destruct (IH (attempt + 1) w1) as [Hclock [rest Htrace]].
        cbn zeta in *. split.
        -- assert (clock w <= clock w1) as Hw1; [|lia].
           pose proof (Z.pow_nonneg 2 attempt ltac:(lia)) as Hpow.
           unfold w1, sleep, seconds. simpl. lia.
        -- rewrite Htrace. unfold w1. simpl. rewrite <- !app_assoc. eauto.
Qed.

Lemma try_providers_clock (providers : list (Role * option Provider))
    (prompt function_name : string) (w : World) :
  let w' :=
    (try_providers http_post json_loads isoformat providers prompt
       function_name w).2 in
  clock w <= clock w' /\ exists rest, trace w' = trace w ++ rest.
Proof.
  revert w. induction providers as [|[role [provider|]] providers IH];
    intros w.
  - simpl. split; [lia|]. exists []. by rewrite app_nil_r.
  - rewrite try_providers_step.
    destruct (attempt_loop_clock role provider prompt
                (Z.to_nat (retry_attempts provider)) 0 w)
      as [Hclock [rest Htrace]].
    fold (generate_response http_post role provider prompt w)
      in Hclock, Htrace.
    destruct (generate_response http_post role provider prompt w)
      as [response w1]. cbn [snd] in Hclock, Htrace.
    destruct (IH w1) as [Hclock' [rest' Htrace']]. cbn zeta in *.
    assert (clock w <= clock
              (try_providers http_post json_loads isoformat providers prompt
                 function_name w1).2
            /\ exists rest0,
                 trace (try_providers http_post json_loads isoformat
                          providers prompt function_name w1).2
                 = trace w ++ rest0) as Hrest.
    { split; [lia|]. rewrite Htrace', Htrace, <- app_assoc. eauto. }
    destruct response as [response|e]; [|done].
    destruct (_parse_comparison_response json_loads isoformat response
                function_name (clock w1)); [|done].
    simpl. eauto.
  - cbn [try_providers]. apply IH.
Qed.

(** [compare_code] goes through the rate limiter before anything else:
    when the limiter raises, so does the call, and nothing else happens;
    when it returns, the evaluator holds the limiter with the new
    timestamp, and whatever else the call does comes after the wait. *)
Lemma compare_code_gate
    (self : Evaluator) (student_code reference_code function_name : string)
    (context : option pyval) (w w1 : World) (limiter : RateLimiter)
    (error : option Exn) :
  let call :=
    compare_code http_post json_loads md5_hexdigest
      create_code_comparison_prompt isoformat self student_code
      reference_code function_name context w in
  wait_if_needed (rate_limiter self) w = (error, limiter, w1) ->
  call.1.2 = with_rate_limiter self limiter
  /\ clock w1 <= clock call.2
  /\ (exists rest, trace call.2 = trace w1 ++ rest)
  /\ (forall e, error = Some e -> call.1.1 = Raise e /\ call.2 = w1).
Proof.
  intros call Hgate. unfold call, compare_code. rewrite Hgate.
  destruct error as [e|].
  { simpl. split_and!; [done|lia| |by intros ? [= <-]].
    exists []. by rewrite app_nil_r. }
  set (self1 := with_rate_limiter self limiter).
  set (key := _generate_cache_key _ _ _ _).
  assert (clock (cache_lookup self1 key w1).2 = clock w1
          /\ trace (cache_lookup self1 key w1).2 = trace w1) as [Hc Ht].
  { unfold cache_lookup. destruct (cache self1) as [c|]; [|done].
    assert (clock (cache_get c key w1).2 = clock w1
            /\ trace (cache_get c key w1).2 = trace w1) as Hget.
    { unfold cache_get.
      destruct (files w1 !! cache_file c key) as [[|cache_time data]|];
        [done| |done].
      by destruct (clock w1 - cache_time >? seconds (ttl_seconds c)). }
    destruct (cache_get c key w1) as [[cached|] w2]; [|done].
    by destruct (truthy cached). }
  destruct (cache_lookup self1 key w1) as [[cached|] w2];
    cbn [snd] in Hc, Ht.
  { simpl. split_and!; [done|lia| |done]. exists []. by rewrite app_nil_r, Ht. }
  set (prompt := create_code_comparison_prompt _ _ _ _).
  destruct (try_providers_clock (providers_of self1) prompt function_name w2)
    as [Hclock [rest Htrace]].
  destruct (try_providers http_post json_loads isoformat (providers_of self1)
              prompt function_name w2) as [[result|] w3];
    cbn [snd] in Hclock, Htrace; cbn [fst snd].
  - split_and!; [done| | |done].
    + destruct (cache self1); simpl; lia.
    + exists rest. destruct (cache self1); simpl; by rewrite Htrace, Ht.
  - split_and!; [done|lia| |done]. exists rest. by rewrite Htrace, Ht.
Qed.


End RateGateFacts.

(** ** The LLM layer on concrete runs *)

Section LLMExamples.
Import PyStr Py LLM Spec.



Lemma compare_code_provider_order_witness :
  let prompt := "Compare aggregate_values" in
  let call :=
    compare_code Scenario.always_fails Scenario.json_loads
      Scenario.md5_hexdigest Scenario.create_code_comparison_prompt
      Scenario.isoformat Scenario.evaluator
      "def aggregate_values(w, V): pass" "def aggregate_values(w, V): ..."
      "aggregate_values" None Scenario.start in
  trace call.2
  = [ Post Primary prompt; Slept (seconds 1);
      Post Primary prompt; Slept (seconds 2);
      Post Primary prompt;
      Post Fallback prompt; Slept (seconds 1);
      Post Fallback prompt ]
  /\ call.1.1
     = Raise (LLMProviderError "All LLM providers failed to generate response")
  /\ files call.2 = ∅.
Proof.
  intros prompt call.
  destruct (compare_code_provider_order Scenario.always_fails
              Scenario.json_loads Scenario.md5_hexdigest
              Scenario.create_code_comparison_prompt Scenario.isoformat
              Scenario.evaluator
              "def aggregate_values(w, V): pass"
              "def aggregate_values(w, V): ..."
              "aggregate_values" None
              {| requests_per_minute := 60; burst_limit := 10; requests := [0] |}
              Scenario.start Scenario.start Scenario.start
              eq_refl eq_refl)
    as (j1 & j2 & _ & _ & Htrace & _ & Hraise & Hall).
  destruct Hall as (-> & -> & Hout).
  { intros role history. by exists "timed out". }
  fold call in Htrace, Hraise, Hout.
  split; [exact Htrace|]. split; [exact Hout|].
  by destruct (Hraise _ Hout) as [_ ->].
Defined.

(** With no request allowed per minute the first call reads
    [self.requests[0]] from the empty list. *)
Example wait_if_needed_zero_rate :
  (wait_if_needed
     {| requests_per_minute := 0; burst_limit := 0; requests := [] |}
     Scenario.start).1.1 = Some IndexError.
Proof. reflexivity. Qed.

(** With no attempt configured the provider is never contacted and hands
    back [None]. *)
Example generate_response_no_attempt :
  generate_response Scenario.always_fails Primary
    {| kind := Ollama; retry_attempts := 0 |} "p" Scenario.start
  = (Ok PyNone, Scenario.start).
Proof. reflexivity. Qed.

(** An entry is served up to and including its time to live, and removed
    afterwards. *)
Example cache_get_expiry :
  let c := {| cache_dir := "d"; ttl_seconds := 10 |} in
  let w (now : Z) :=
    {| clock := now;
       files := {[ "d/k.json" := Stored 0 (PyDict [("score", PyInt 85)]) ]};
       trace := [] |} in
  (cache_get c "k" (w (seconds 10))).1 = Some (PyDict [("score", PyInt 85)])
  /\ (cache_get c "k" (w (seconds 10 + 1))).1 = None
  /\ files (cache_get c "k" (w (seconds 10 + 1))).2 !! "d/k.json" = None.
Proof. by vm_compute. Qed.

(** C3, the failing input.  The provider answers with the empty JSON
    object.  The first call returns the empty dict and stores it; the second
    call, made at once with the same triple, finds the stored verdict but
    treats it as a miss because it is falsy, and sends a request again. *)
Theorem empty_verdict_not_served_from_cache :
  let run :=
    compare_code (Scenario.answers "{}") Scenario.json_loads
      Scenario.md5_hexdigest Scenario.create_code_comparison_prompt
      Scenario.isoformat in
  let first := run Scenario.evaluator "s" "r" "f" None Scenario.start in
  let second := run first.1.2 "s" "r" "f" None first.2 in
  first.1.1 = Ok (PyDict [])
  /\ files first.2 !! ".llm_cache/s|r|f.json" = Some (Stored 0 (PyDict []))
  /\ clock first.2 = 0
  /\ posts first.2 = [Post Primary "Compare f"]
  /\ second.1.1 = Ok (PyDict [])
  /\ posts second.2 = [Post Primary "Compare f"; Post Primary "Compare f"].
Proof. vm_compute. repeat split; reflexivity. Qed.

End LLMExamples.

(** ** The free-text parser *)

Section ParserFacts.
Import PyStr Py LLM Spec.
Variable json_loads : string -> option pyval.
Variable isoformat : Z -> string.

Lemma classify_line_rule (verdict : string * Z) (line : string) :
  ~ (contains "incorrect" (lower (strip line)) = true
     /\ contains "implementation" (lower (strip line)) = true) ->
  classify_line verdict line
  = from_option id verdict (keyword_rule (lower (strip line))).
Proof.
  intros Hslip. unfold classify_line, keyword_rule.
  destruct (contains "correct" (lower (strip line))) eqn:Hc;
    destruct (contains "implementation" (lower (strip line))) eqn:Hi;
    destruct (contains "incorrect" (lower (strip line))) eqn:Hn;
    simpl; try done; try (destruct Hslip; by split);
    by repeat case_match.
Qed.

Lemma last_cons_from_option {A} (x : A) (l : list A) :
  last (x :: l) = Some (from_option id x (last l)).
Proof.
  revert x. induction l as [|y l IH]; intros x; [done|].
  change (last (x :: y :: l)) with (last (y :: l)). rewrite IH. simpl.
  by destruct (last l).
Qed.

Lemma foldl_classify_line (verdict : string * Z) (lines : list string) :
  (forall line, line ∈ lines ->
     ~ (contains "incorrect" (lower (strip line)) = true
        /\ contains "implementation" (lower (strip line)) = true)) ->
  foldl classify_line verdict lines
  = from_option id verdict
      (last (omap keyword_rule ((fun line => lower (strip line)) <$> lines))).
Proof.
  revert verdict. induction lines as [|line lines IH]; intros verdict Hslip.
  - done.
  - cbn [foldl fmap list_fmap omap list_omap].
    rewrite IH by (intros l Hl; apply Hslip; by right).
    rewrite classify_line_rule by (apply Hslip; by left).
    destruct (keyword_rule (lower (strip line))) as [rule|]; [|done].
    rewrite last_cons_from_option. simpl.
    by destruct (last _).
Qed.

Lemma keyword_rule_range (line : string) (rule : string * Z) :
  keyword_rule line = Some rule ->
  rule ∈ [("correct", 85); ("incorrect", 25); ("partially_correct", 60)].
Proof.
  clear json_loads isoformat.
  unfold keyword_rule. repeat case_match; intros [= <-];
    rewrite !elem_of_cons; auto.
Qed.

(** C4 (amended).  A response whose trimmed text does not start with an
    opening brace, or that [json.loads] rejects, goes to the line-by-line
    parser, which always builds a verdict with all seven fields.  Unless a
    line speaks of an incorrect implementation, the verdict is set by the
    last line to which a rule applies: a line with "correct" and
    "implementation" gives correct/85; otherwise a line with "incorrect" or
    "error" gives incorrect/25; otherwise a line with "partially" or
    "almost" gives partially_correct/60; when no rule applies to any line
    the verdict is unknown/50. *)
Theorem text_response_verdict (text function_name : string) (now : Z) :
  startswith "{" (strip text) = false \/ json_loads text = None ->
  no_incorrect_implementation text ->
  _parse_comparison_response json_loads isoformat (PyStr text) function_name now
  = Ok (PyDict [ ("comparison_result", PyStr (last_rule_verdict text).1);
                 ("educational_feedback", PyStr text);
                 ("suggestions", PyList []);
                 ("score", PyInt (last_rule_verdict text).2);
                 ("understanding_check", PyList []);
                 ("function_name", PyStr function_name);
                 ("timestamp", PyStr (isoformat now)) ])
  /\ last_rule_verdict text
     ∈ [("correct", 85); ("incorrect", 25); ("partially_correct", 60);
        ("unknown", 50)]
  /\ ((forall line, line ∈ normalised_lines text -> keyword_rule line = None) ->
      last_rule_verdict text = ("unknown", 50)).
Proof.
  intros Htext Hslip. split; [|split].
  - assert (_parse_comparison_response json_loads isoformat (PyStr text)
              function_name now
            = Ok (_parse_text_response isoformat text function_name now)) as ->.
    { unfold _parse_comparison_response.
      destruct Htext as [->| ->]; [done|]. by case_match. }
    unfold _parse_text_response, last_rule_verdict, normalised_lines.
    rewrite foldl_classify_line; [done|].
    intros line Hline. apply Hslip. unfold normalised_lines.
    by apply (list_elem_of_fmap_2 (fun l => lower (strip l))).
  - unfold last_rule_verdict.
    destruct (last _) as [rule|] eqn:Hlast; simpl.
    + apply last_Some_elem_of, list_elem_of_omap in Hlast as (line & _ & Hrule).
      apply keyword_rule_range in Hrule.
      rewrite !elem_of_cons in Hrule. rewrite !elem_of_cons. tauto.
    + rewrite !elem_of_cons. auto 10.
  - intros Hnone. unfold last_rule_verdict.
    destruct (last _) as [rule|] eqn:Hlast; [|done].
    apply last_Some_elem_of, list_elem_of_omap in Hlast as (line & Hline & Hrule).
    by rewrite (Hnone line Hline) in Hrule.
Qed.

End ParserFacts.

Section ParserExamples.
Import PyStr Py LLM Spec.

Lemma text_response_verdict_witness :
  let text := "Good start." +:+ String newline "This is a correct implementation." in
  exists verdict,
    _parse_comparison_response Scenario.json_loads Scenario.isoformat
      (PyStr text) "aggregate_values" 0 = Ok verdict
    /\ get verdict "comparison_result" = PyStr "correct"
    /\ get verdict "score" = PyInt 85.
Proof.
  intros text.
  destruct (text_response_verdict Scenario.json_loads Scenario.isoformat
              text "aggregate_values" 0) as (Hparse & _ & _).
  - left. reflexivity.
  - intros line Hline [Hbad _].
    vm_compute in Hline.
    apply list_elem_of_In in Hline.
    destruct Hline as [<-|[<-|[]]]; vm_compute in Hbad; discriminate.
  - eexists. split; [exact Hparse|]. split; reflexivity.
Defined.

(** Against C4 as stated: no line of this response holds "correct",
    "incorrect" or "partially", yet the verdict is partially_correct/60 and
    not unknown/50. *)
Lemma almost_is_a_keyword :
  let text := "You are almost there." in
  let verdict := _parse_text_response Scenario.isoformat text "aggregate_values" 0 in
  (forall keyword, keyword ∈ ["correct"; "incorrect"; "partially"] ->
     forall line, line ∈ split newline text ->
       contains keyword (lower (strip line)) = false)
  /\ _parse_comparison_response Scenario.json_loads Scenario.isoformat
       (PyStr text) "aggregate_values" 0 = Ok verdict
  /\ get verdict "comparison_result" = PyStr "partially_correct"
  /\ get verdict "score" = PyInt 60
  /\ (get verdict "comparison_result", get verdict "score")
     <> (PyStr "unknown", PyInt 50).
Proof.
  intros text verdict. split; [|by vm_compute].
  intros keyword Hk line Hline.
  apply list_elem_of_In in Hk, Hline.
  destruct Hline as [<-|[]].
  destruct Hk as [<-|[<-|[<-|[]]]]; reflexivity.
Qed.

(** The line that the amended statement sets aside: "incorrect" holds
    "correct", so the first rule of the parser fires. *)
Example incorrect_implementation_scored_correct :
  let verdict :=
    _parse_text_response Scenario.isoformat
      "The implementation is incorrect." "aggregate_values" 0 in
  get verdict "comparison_result" = PyStr "correct"
  /\ get verdict "score" = PyInt 85.
Proof. by vm_compute. Qed.

End ParserExamples.

(** ** The overall score *)

Section GradeFacts.
Import PyStr Py Evaluation Spec.
Variable evaluate : Implementation -> pyval.
Variable np_mean : list pyval -> option Q.

(** The loop collects the scores of the LLM verdicts and records the
    verdicts; the tensor tests enter neither.  It is left early exactly by
    a verdict that is not a dict. *)
Lemma grade_sections_spec (tensor_test : Implementation -> pyval)
    (sections : list (string * Implementation))
    (section_results : list (string * SectionResult))
    (overall_scores : list pyval) :
  match grade_sections evaluate tensor_test sections section_results
          overall_scores with
  | Some (results, scores) =>
      scores = overall_scores ++ llm_scores evaluate sections
      /\ llm_evaluation <$> results.*2
         = (llm_evaluation <$> section_results.*2)
           ++ (recorded_verdict evaluate <$> sections)
      /\ length results
         = (length section_results + length sections)%nat
      /\ (forall section, section ∈ sections ->
            truthy (PyStr (code section.2)) = true ->
            exists entries, evaluate section.2 = PyDict entries)
  | None =>
      exists section,
        section ∈ sections
        /\ truthy (PyStr (code section.2)) = true
        /\ forall entries, evaluate section.2 <> PyDict entries
  end.
Proof.
  revert section_results overall_scores.
  induction sections as [|[section_name info] sections IH];
    intros section_results overall_scores.
  - simpl. rewrite !app_nil_r. split_and!; [done|done|lia|].
    intros section Hin. by apply elem_of_nil in Hin.
  - cbn [grade_sections]. unfold llm_scores. cbn [mbind list_bind snd].
    fold (llm_scores evaluate sections).
    rewrite fmap_cons. unfold recorded_verdict at 1. cbn [snd].
    destruct (truthy (PyStr (code info))) eqn:Hcode.
    + destruct (evaluate info) as [| | | | |entries] eqn:Hverdict;
        try (exists (section_name, info); split; [by left|];
             split; [done|]; cbn [snd]; by rewrite Hverdict).
      cbn [dict_get get].
      set (entry := {| llm_evaluation := PyDict entries;
                       tensor_validation := tensor_test info;
                       section_function := function_name info |}).
      assert (forall scores,
        match grade_sections evaluate tensor_test sections
                (section_results ++ [(section_name, entry)]) scores with
        | Some (results, scores') =>
            scores' = scores ++ llm_scores evaluate sections
            /\ llm_evaluation <$> results.*2
               = (llm_evaluation <$> section_results.*2)
                 ++ PyDict entries :: (recorded_verdict evaluate <$> sections)
            /\ length results
               = (length section_results + length ((section_name, info) :: sections))%nat
            /\ (forall section, section ∈ (section_name, info) :: sections ->
                  truthy (PyStr (code section.2)) = true ->
                  exists entries, evaluate section.2 = PyDict entries)
        | None =>
            exists section,
              section ∈ (section_name, info) :: sections
              /\ truthy (PyStr (code section.2)) = true
              /\ forall entries, evaluate section.2 <> PyDict entries
        end) as Hnext.
      { intros scores.
        specialize (IH (section_results ++ [(section_name, entry)]) scores).
        destruct (grade_sections evaluate tensor_test sections _ scores)
          as [[results scores']|].
        - destruct IH as (Hs & Hv & Hl & Hd). split_and!.
          + done.
          + rewrite Hv, !fmap_app, <- app_assoc. done.
          + rewrite Hl, length_app. simpl. lia.
          + intros section [->|Hin]%elem_of_cons Ht; [|by apply Hd].
            cbn [snd]. eauto.
        - destruct IH as (section & Hin & Ht & Hno).
          exists section. split; [by right|done]. }
      destruct (from_option id PyNone (assoc "score" entries)) eqn:Hscore.
      all: match goal with
           | |- context [grade_sections _ _ _ _ ?sc] => specialize (Hnext sc)
           end.
      all: destruct (grade_sections evaluate tensor_test sections _ _)
             as [[results scores']|]; [|exact Hnext].
      all: destruct Hnext as (Hs & Hv & Hl & Hd).
      all: split_and!; [|exact Hv|exact Hl|exact Hd].
      all: rewrite Hs, <- ?app_assoc; done.
    + set (entry := {| llm_evaluation := llm_evaluation not_implemented;
                       tensor_validation := tensor_validation not_implemented;
                       section_function := function_name info |}).
      specialize (IH (section_results ++ [(section_name, entry)])
                    (overall_scores ++ [PyInt 0])).
      destruct (grade_sections evaluate tensor_test sections _ _)
        as [[results scores']|].
      * destruct IH as (Hs & Hv & Hl & Hd). split_and!.
        -- rewrite Hs, <- app_assoc. done.
        -- rewrite Hv, !fmap_app, <- app_assoc. done.
        -- rewrite Hl, length_app. simpl. lia.
        -- intros section [->|Hin]%elem_of_cons Ht; [|by apply Hd].
           cbn [snd] in Ht. congruence.
      * destruct IH as (section & Hin & Ht & Hno).
        exists section. split; [by right|done].
Qed.

Lemma mapM_comparison_flag_Some (verdicts : list pyval) :
  Forall has_comparison_result verdicts ->
  is_Some (mapM comparison_flag verdicts).
Proof.
  intros Hall. apply mapM_is_Some. eapply Forall_impl; [exact Hall|].
  intros verdict (entries & result & -> & Hresult). simpl. rewrite Hresult.
  destruct result; eauto.
Qed.

Lemma mapM_comparison_flag_None (verdicts : list pyval) (verdict : pyval) :
  verdict ∈ verdicts -> ~ has_comparison_result verdict ->
  mapM comparison_flag verdicts = None.
Proof.
  intros Hin Hno. destruct (mapM comparison_flag verdicts) eqn:Hm; [|done].
  exfalso. apply Hno.
  assert (is_Some (mapM comparison_flag verdicts)) as Hsome by eauto.
  apply mapM_is_Some in Hsome. rewrite Forall_forall in Hsome.
  destruct (Hsome verdict Hin) as [flag Hflag].
  destruct verdict as [| | | | |entries]; try done. simpl in Hflag.
  destruct (assoc "comparison_result" entries) as [result|] eqn:Hresult;
    [|done].
  by exists entries, result.
Qed.

Lemma mapM_is_implemented (results : list (string * SectionResult)) :
  mapM is_implemented results.*2
  = mapM comparison_flag (llm_evaluation <$> results.*2).
Proof.
  generalize (results.*2). intros l.
  induction l as [|r l IH]; [done|]. simpl. by rewrite IH.
Qed.

(** The overall score as a function of the scores and verdicts alone. *)
Lemma overall_score_cases (tensor_test : Implementation -> pyval)
    (sections : list (string * Implementation)) :
  let report := grade_notebook evaluate tensor_test np_mean sections in
  let scores := llm_scores evaluate sections in
  ((exists section,
      section ∈ sections /\ truthy (PyStr (code section.2)) = true
      /\ forall entries, evaluate section.2 <> PyDict entries)
   /\ report = ErrorReport)
  \/ ((forall section, section ∈ sections ->
         truthy (PyStr (code section.2)) = true ->
         exists entries, evaluate section.2 = PyDict entries)
      /\ overall_score report
         = match match scores with [] => Some 0%Q | _ => np_mean scores end,
                 mapM comparison_flag (recorded_verdict evaluate <$> sections)
           with
           | Some mean, Some _ => mean
           | _, _ => 0%Q
           end).
Proof.
  intros report scores. unfold report, grade_notebook.
  pose proof (grade_sections_spec tensor_test sections [] []) as Hspec.
  destruct (grade_sections evaluate tensor_test sections [] [])
    as [[results collected]|].
  - right. destruct Hspec as (-> & Hverdicts & _ & Hdicts).
    split; [done|]. cbn [app fmap list_fmap] in *. fold scores.
    rewrite mapM_is_implemented, Hverdicts.
    destruct (match scores with [] => Some 0%Q | _ => np_mean scores end);
      [|done].
    by destruct (mapM comparison_flag _).
  - left. by split.
Qed.


End GradeFacts.

Section GradeExamples.
Import PyStr Py Evaluation Spec.

Lemma mean_of_integers_averages : averages_integers Scenario.mean_of_integers.
Proof.
  intros values numbers Hne Hnum. unfold Scenario.mean_of_integers.
  rewrite Hnum. destruct numbers; [|done].
  apply length_mapM in Hnum. by destruct values.
Qed.



(** With well-formed verdicts the report counts the sections and those
    that are implemented. *)
Example grade_notebook_summary :
  let evaluate (info : Implementation) :=
    PyDict [("comparison_result", PyStr "correct"); ("score", PyInt 85)] in
  let passing (info : Implementation) := PyDict [("valid", PyBool true)] in
  let sections :=
    [ ("section_1", {| function_name := "create_qkv_projections";
                       code := "def create_qkv_projections(x): pass";
                       cell_index := 4 |});
      ("section_2", {| function_name := "compute_attention_scores";
                       code := EmptyString; cell_index := -1 |}) ] in
  exists results,
    grade_notebook evaluate passing Scenario.mean_of_integers sections
    = Report (85 # 2) "F" results 2 1.
Proof. eexists. vm_compute. reflexivity. Qed.

End GradeExamples.

(** ** The cell store *)

Section CellStoreFacts.
Import NotebookExecutor.

Lemma extract_loop_lookup (idx : nat) (raw : list RawCell)
    (acc : list CodeCell) (k : nat) (c : CodeCell) :
  extract_loop idx raw acc !! k = Some c ->
  acc !! k = Some c
  \/ ((length acc <= k)%nat
      /\ exists i r,
           raw !! i = Some r /\ raw_cell_type r = Some "code"
           /\ index c = (idx + i)%nat /\ source c = source_text r).
Proof.
  revert idx acc. induction raw as [|cell raw IH]; intros idx acc H;
    simpl in H.
  - by left.
  - case_bool_decide as Hc.
    + apply IH in H as [H|(Hlen & i & r & Hi & Hr & Hidx & Hsrc)].
      * apply lookup_app_Some in H as [H|[Hlen H]]; [by left|].
        apply list_lookup_singleton_Some in H as [Hk <-]. right.
        split; [lia|]. exists 0%nat, cell. simpl. split_and!; first [done|lia].
      * right. rewrite length_app in Hlen. simpl in Hlen. split; [lia|].
        exists (S i), r. split_and!; first [done|lia].
    + apply IH in H as [H|(Hlen & i & r & Hi & Hr & Hidx & Hsrc)];
        [by left|].
      right. split; [done|]. exists (S i), r. split_and!; first [done|lia].
Qed.

Lemma extract_loop_increasing (idx : nat) (raw : list RawCell)
    (acc : list CodeCell) :
  (forall c, c ∈ acc -> (index c < idx)%nat) ->
  (forall j k cj ck, acc !! j = Some cj -> acc !! k = Some ck ->
                     (j < k)%nat -> (index cj < index ck)%nat) ->
  forall j k cj ck,
    extract_loop idx raw acc !! j = Some cj ->
    extract_loop idx raw acc !! k = Some ck ->
    (j < k)%nat -> (index cj < index ck)%nat.
Proof.
  revert idx acc. induction raw as [|cell raw IH]; intros idx acc Hlt Hinc;
    simpl.
  - done.
  - case_bool_decide as Hc.
    + apply IH.
      * intros c [Hin| ->%list_elem_of_singleton]%elem_of_app.
        -- specialize (Hlt c Hin). lia.
        -- simpl. lia.
      * intros j k cj ck Hj Hk Hjk.
        apply lookup_app_Some in Hk as [Hk|[Hlen Hk]].
        -- apply (Hinc j k); try done.
           apply lookup_app_Some in Hj as [Hj|[Hlen _]]; [done|].
           apply lookup_lt_Some in Hk. lia.
        -- apply list_lookup_singleton_Some in Hk as [Hk <-]. simpl.
           apply lookup_app_Some in Hj as [Hj|[Hlen' _]]; [|lia].
           apply Hlt. by eapply list_elem_of_lookup_2.
    + apply IH; [|done]. intros c Hin. specialize (Hlt c Hin). lia.
Qed.

Lemma extract_loop_complete (idx : nat) (raw : list RawCell)
    (acc : list CodeCell) :
  (forall c, c ∈ acc -> c ∈ extract_loop idx raw acc)
  /\ (forall i r,
        raw !! i = Some r -> raw_cell_type r = Some "code" ->
        exists c, c ∈ extract_loop idx raw acc /\ index c = (idx + i)%nat).
Proof.
  revert idx acc. induction raw as [|cell raw IH]; intros idx acc; simpl.
  - split; [done|]. intros i r Hi. done.
  - case_bool_decide as Hc.
    + destruct (IH (S idx)
                  (acc ++ [{| index := idx; source := source_text cell;
                              original_index := length acc |}]))
        as [Hkeep Hnew].
      split.
      * intros c Hin. apply Hkeep, elem_of_app. by left.
      * intros [|i] r Hi Hr; simpl in Hi.
        -- eexists. split.
           ++ apply Hkeep, elem_of_app. right. apply list_elem_of_singleton.
              reflexivity.
           ++ simpl. lia.
        -- destruct (Hnew i r Hi Hr) as (c & Hin & Hidx).
           exists c. split; [done|]. lia.
    + destruct (IH (S idx) acc) as [Hkeep Hnew]. split; [done|].
      intros [|i] r Hi Hr; simpl in Hi.
      * congruence.
      * destruct (Hnew i r Hi Hr) as (c & Hin & Hidx).
        exists c. split; [done|]. lia.
Qed.

(** The entries of [self.cells] against the notebook document: there is one
    entry per code cell; the entry at position [k] has [original_index] [k]
    and its [index] is the position in the document of a code cell whose
    joined source it carries; the document positions increase along the
    list; and every code cell of the document has its entry. *)
Theorem extract_code_cells_positions (notebook_cells : list RawCell) :
  let cells := _extract_code_cells notebook_cells in
  length cells
  = length (filter (fun cell => raw_cell_type cell = Some "code")
              notebook_cells)
  /\ (forall k c,
        cells !! k = Some c ->
        original_index c = k
        /\ exists r, notebook_cells !! index c = Some r
                     /\ raw_cell_type r = Some "code"
                     /\ source c = source_text r)
  /\ (forall j k cj ck,
        cells !! j = Some cj -> cells !! k = Some ck ->
        (j < k)%nat -> (index cj < index ck)%nat)
  /\ (forall i r,
        notebook_cells !! i = Some r -> raw_cell_type r = Some "code" ->
        exists c, c ∈ cells /\ index c = i).
Proof.
  intros cells. unfold cells, _extract_code_cells. split_and!.
  - pose proof (extract_code_cells_sources notebook_cells) as H.
    apply (f_equal length) in H. by rewrite !length_fmap in H.
  - intros k c Hk. split.
    + pose proof (extract_code_cells_ordinals notebook_cells k c Hk). lia.
    + apply extract_loop_lookup in Hk
        as [Hk|(_ & i & r & Hi & Hr & Hidx & Hsrc)]; [done|].
      exists r. by rewrite Hidx.
  - apply extract_loop_increasing.
    + intros c Hc. by apply elem_of_nil in Hc.
    + intros j k cj ck Hj. done.
  - intros i r Hi Hr.
    destruct (extract_loop_complete 0 notebook_cells []) as [_ Hnew].
    destruct (Hnew i r Hi Hr) as (c & Hin & Hidx). by exists c.
Qed.

End CellStoreFacts.

(** ** Replays against each other and against the cache *)

Section ReplayCacheFacts.
Import PyStr NotebookExecutor Spec Replay.
Context {Value Store : Type}.
Variable exec : string -> Addr -> Memory Value Store -> ExecResult Value Store.
Variable deepcopy : Value -> option Value.
Variable has_module_attr : Value -> bool.
Variable is_module : Value -> bool.
Variable runtime_object : string -> Value.

(** The replay up to a later target continues the replay up to an earlier
    one: it is the shorter replay followed by the cells whose ordinals lie
    between the two targets, run on the dict, the warnings and the memory
    that the shorter replay ends with. *)
Theorem replay_continues_shorter_replay
    (notebook_cells : list RawCell) (cache : gmap Z (gmap string Value))
    (t1 t2 : Z) (m : Memory Value Store) :
  let self := {| cells := _extract_code_cells notebook_cells;
                 execution_cache := cache |} in
  let short :=
    execute_cells_until exec deepcopy has_module_attr is_module
      runtime_object self t1 m in
  let long :=
    execute_cells_until exec deepcopy has_module_attr is_module
      runtime_object self t2 m in
  -1 <= t1 -> t1 <= t2 ->
  cache !! t1 = None -> cache !! t2 = None ->
  exists middle : State Value Store,
    (short.1.1.1, short.1.2, short.2)
    = (Some (namespace middle), middle.1.2, middle.2)
    /\ let between :=
         take (Z.to_nat (t2 - t1)) (drop (Z.to_nat (t1 + 1)) (cells self)) in
       let final := run_cells exec (Z.to_nat (t1 + 1)) between middle in
       (long.1.1.1, long.1.2, long.2)
       = (Some (namespace final), final.1.2, final.2).
Proof.
  intros self short long Hlo Hle Hm1 Hm2. unfold short, long, self.
  rewrite !execute_cells_until_miss_state by done.
  cbn [fst snd cells].
  set (cs := _extract_code_cells notebook_cells).
  set (s1 := run_cells exec 0 (take (Z.to_nat (t1 + 1)) cs) _).
  exists s1. split; [done|].
  replace (Z.to_nat (t2 + 1))
    with (Z.to_nat (t1 + 1) + Z.to_nat (t2 - t1))%nat by lia.
  rewrite <- take_take_drop, run_cells_app. fold s1.
  destruct (decide (Z.to_nat (t1 + 1) <= length cs)%nat) as [Hin|Hout].
  - rewrite length_take_le by done. done.
  - rewrite drop_ge by lia. rewrite take_nil. done.
Qed.

(** Code cells after the target are never looked at: two notebooks whose
    code cells agree up to the target give, on a miss, the same namespace,
    the same warnings, the same memory and the same cache entry. *)
Theorem cells_beyond_target_not_executed
    (notebook_cells notebook_cells' : list RawCell)
    (cache cache' : gmap Z (gmap string Value)) (target : Z)
    (m : Memory Value Store) :
  let run cells cache :=
    execute_cells_until exec deepcopy has_module_attr is_module
      runtime_object {| cells := cells; execution_cache := cache |}
      target m in
  let one := run (_extract_code_cells notebook_cells) cache in
  let other := run (_extract_code_cells notebook_cells') cache' in
  cache !! target = None -> cache' !! target = None ->
  take (Z.to_nat (target + 1)) (_extract_code_cells notebook_cells)
  = take (Z.to_nat (target + 1)) (_extract_code_cells notebook_cells') ->
  one.1.1.1 = other.1.1.1 /\ one.1.2 = other.1.2 /\ one.2 = other.2
  /\ execution_cache one.1.1.2 !! target
     = execution_cache other.1.1.2 !! target.
Proof.
  intros run one other Hm Hm' Htake. unfold one, other, run.
  rewrite !execute_cells_until_miss_state by done.
  cbn [fst snd cells execution_cache]. rewrite !lookup_insert_eq, Htake.
  done.
Qed.

Lemma cacheable_context_lookup (context : gmap string Value) (key : string) :
  cacheable_context deepcopy has_module_attr is_module context !! key
  = cacheable_value deepcopy has_module_attr is_module key
      <$> context !! key.
Proof.
  unfold cacheable_context. rewrite map_lookup_imap.
  by destruct (context !! key).
Qed.

Lemma cacheable_value_uncopyable (key : string) (value : Value) :
  deepcopy value = None ->
  cacheable_value deepcopy has_module_attr is_module key value = value.
Proof. intros H. unfold cacheable_value. rewrite H. by case_match. Qed.

(** The cache of [execute_cells_until] after a miss.  The entries of the
    other targets are as before.  A second call for the same target runs no
    cell, prints nothing and leaves the memory and the object as they are:
    it answers with a deep copy of the stored snapshot.  When the namespace
    binds a value that [copy.deepcopy] cannot copy, the snapshot keeps the
    value itself, so the second call raises where the first returned.  When
    every bound value is its own deep copy, the second call returns the
    namespace of the first. *)
Theorem cached_replay_round_trip
    (self : Executor Value) (target : Z)
    (m : Memory Value Store) :
  let first :=
    execute_cells_until exec deepcopy has_module_attr is_module
      runtime_object self target m in
  execution_cache self !! target = None ->
  exists context,
    first.1.1.1 = Some context
    /\ (forall other, other <> target ->
          execution_cache first.1.1.2 !! other
          = execution_cache self !! other)
    /\ (forall m2,
          exists again,
            execute_cells_until exec deepcopy has_module_attr is_module
              runtime_object first.1.1.2 target m2
            = (again, first.1.1.2, [], m2)
            /\ ((exists key value,
                   context !! key = Some value /\ deepcopy value = None) ->
                again = None)
            /\ ((forall key value,
                   context !! key = Some value ->
                   deepcopy value = Some value) ->
                again = Some context)).
Proof.
  intros first Hmiss.
  assert (exists context out m',
            first
            = (Some context,
               {| cells := cells self;
                  execution_cache :=
                    <[target := cacheable_context deepcopy has_module_attr
                                  is_module context]> (execution_cache self) |},
               out, m')) as (context & out & m' & Hfirst).
  { unfold first, execute_cells_until. rewrite Hmiss.
    destruct (new_dict _ m) as [context0 m0].
    destruct (replay_loop _ _ _ _ _ _ _) as [[context out] m']. eauto. }
  rewrite Hfirst. clear first Hfirst.
  cbn [fst snd execution_cache]. exists context. split_and!; [done| |].
  - intros other Hne. by rewrite lookup_insert_ne.
  - intros m2. eexists. split.
    + apply execute_cells_until_hit. cbn [execution_cache].
      apply lookup_insert_eq.
    + unfold deepcopy_dict. split.
      * intros (key & value & Hkey & Hcopy). rewrite decide_False; [done|].
        intros Hall.
        specialize (Hall key value). rewrite cacheable_context_lookup in Hall.
        rewrite Hkey in Hall. simpl in Hall.
        rewrite cacheable_value_uncopyable in Hall by done.
        specialize (Hall eq_refl). rewrite Hcopy in Hall.
        by destruct Hall.
      * intros Hall.
        assert (cacheable_context deepcopy has_module_attr is_module context
                = context) as ->.
        { apply map_eq. intros key. rewrite cacheable_context_lookup.
          destruct (context !! key) as [value|] eqn:Hkey; [|done]. simpl.
          unfold cacheable_value. rewrite (Hall key value Hkey).
          by case_match. }
        rewrite decide_True.
        -- f_equal. apply map_eq. intros key. rewrite lookup_omap.
           destruct (context !! key) as [value|] eqn:Hkey; [|done]. simpl.
           by apply (Hall key).
        -- intros key value Hkey. rewrite (Hall key value Hkey). eauto.
Qed.

End ReplayCacheFacts.

(** ** The replay facts on a concrete notebook *)

Section ReplayCacheExamples.
Import PyStr NotebookExecutor Spec Replay.

Lemma replay_continues_shorter_replay_witness :
  let self : Executor Toy.value := init Toy.demo_notebook in
  let run target :=
    execute_cells_until Toy.exec Toy.deepcopy Toy.no_attr Toy.no_attr
      Toy.runtime_object self target Toy.empty_memory in
  exists middle : State Toy.value (list string),
    ((run 0).1.1.1, (run 0).1.2, (run 0).2)
    = (Some (namespace middle), middle.1.2, middle.2)
    /\ let final :=
         run_cells Toy.exec (Z.to_nat (0 + 1))
           (take (Z.to_nat (2 - 0)) (drop (Z.to_nat (0 + 1)) (cells self)))
           middle in
       ((run 2).1.1.1, (run 2).1.2, (run 2).2)
       = (Some (namespace final), final.1.2, final.2).
Proof.
  intros self run.
  apply (replay_continues_shorter_replay Toy.exec Toy.deepcopy Toy.no_attr
           Toy.no_attr Toy.runtime_object Toy.demo_notebook ∅ 0 2
           Toy.empty_memory).
  - lia.
  - lia.
  - reflexivity.
  - reflexivity.
Defined.

Lemma cells_beyond_target_not_executed_witness :
  let run notebook :=
    execute_cells_until Toy.exec Toy.deepcopy Toy.no_attr Toy.no_attr
      Toy.runtime_object
      {| cells := _extract_code_cells notebook; execution_cache := ∅ |}
      0 Toy.empty_memory in
  let one := run Toy.demo_notebook in
  let other := run [Toy.code_cell "x = 1"; Toy.code_cell "x = 2"] in
  one.1.1.1 = other.1.1.1 /\ one.1.2 = other.1.2 /\ one.2 = other.2
  /\ execution_cache one.1.1.2 !! 0 = execution_cache other.1.1.2 !! 0.
Proof.
  intros run one other.
  apply (cells_beyond_target_not_executed Toy.exec Toy.deepcopy Toy.no_attr
           Toy.no_attr Toy.runtime_object Toy.demo_notebook
           [Toy.code_cell "x = 1"; Toy.code_cell "x = 2"] ∅ ∅ 0
           Toy.empty_memory).
  - reflexivity.
  - reflexivity.
  - reflexivity.
Defined.

Lemma cached_replay_round_trip_witness :
  let self : Executor Toy.value := init Toy.demo_notebook in
  let first :=
    execute_cells_until Toy.exec Toy.deepcopy Toy.no_attr Toy.no_attr
      Toy.runtime_object self 2 Toy.empty_memory in
  exists context,
    first.1.1.1 = Some context
    /\ execute_cells_until Toy.exec Toy.deepcopy Toy.no_attr Toy.no_attr
         Toy.runtime_object first.1.1.2 2 Toy.empty_memory
       = (Some context, first.1.1.2, [], Toy.empty_memory).
Proof.
  intros self first.
  destruct (cached_replay_round_trip Toy.exec Toy.deepcopy Toy.no_attr
              Toy.no_attr Toy.runtime_object self 2 Toy.empty_memory)
    as (context & Hfirst & _ & Hagain).
  - reflexivity.
  - exists context. split; [exact Hfirst|].
    destruct (Hagain Toy.empty_memory) as (again & Hcall & _ & Hsame).
    fold first in Hcall. rewrite Hcall, Hsame; [reflexivity|].
    intros key value _. reflexivity.
Defined.

End ReplayCacheExamples.

(** ** The function with its context *)

Section ContextApiFacts.
Import PyStr NotebookExecutor Spec Replay ExecutorApi.
Context {Value Store : Type}.
Variable exec : string -> Addr -> Memory Value Store -> ExecResult Value Store.
Variable deepcopy : Value -> option Value.
Variable has_module_attr : Value -> bool.
Variable is_module : Value -> bool.
Variable runtime_object : string -> Value.

(** [get_function_with_context] on a notebook.  When no code cell holds a
    definition header for the name, the [ValueError] of
    [get_context_for_function] is caught: the call prints one message and
    returns [(None, {})], having executed nothing and left the object as it
    was.  Otherwise the call is [execute_cells_until] at the ordinal of the
    first cell that holds the header, never at a negative target, and the
    function is looked up under its name in the namespace that comes back
    ([None] when the name is unbound there, for instance because the
    defining cell raised); on a cache miss that namespace is the replay of
    the cells up to and including the defining one. *)
Theorem get_function_with_context_cases
    (notebook_cells : list RawCell) (cache : gmap Z (gmap string Value))
    (function_name : string)
    (m : Memory Value Store) :
  let self := {| cells := _extract_code_cells notebook_cells;
                 execution_cache := cache |} in
  let call :=
    get_function_with_context exec deepcopy has_module_attr is_module
      runtime_object self function_name m in
  ((forall c, c ∈ cells self -> ~ has_def_header function_name (source c))
   /\ call
      = (Some (None, ∅), self,
         ["Error getting function context: Function '" +:+ function_name
          +:+ "' not found in notebook"],
         m))
  \/ (exists k c,
        cells self !! k = Some c
        /\ has_def_header function_name (source c)
        /\ (forall j c', (j < k)%nat -> cells self !! j = Some c' ->
                         ~ has_def_header function_name (source c'))
        /\ (let replay :=
              execute_cells_until exec deepcopy has_module_attr is_module
                runtime_object self (Z.of_nat k) m in
            call
            = (match replay.1.1.1 with
               | Some context => Some (context !! function_name, context)
               | None => None
               end,
               replay.1.1.2, replay.1.2, replay.2))
        /\ (cache !! Z.of_nat k = None ->
            let context :=
              namespace
                (run_cells exec 0 (take (S k) (cells self))
                   (start runtime_object m)) in
            call.1.1.1 = Some (context !! function_name, context))).
Proof.
  intros self call.
  pose proof (extract_code_cells_ordinals notebook_cells) as Hord.
  change (_extract_code_cells notebook_cells) with (cells self) in Hord.
  destruct (find_loop_cases function_name 0 (cells self) Hord)
    as [[Hm Hall]|(k & c & Hk & Hc & Hlt & Hf)].
  - left. split.
    + intros c Hc Hh%search_def_spec. by rewrite (Hall c Hc) in Hh.
    + unfold call, get_function_with_context, get_context_for_function,
        find_function_cell.
      rewrite Hm. done.
  - right. exists k, c. change (Z.of_nat (0 + k)) with (Z.of_nat k) in Hf.
    assert (call
            = (match (execute_cells_until exec deepcopy has_module_attr
                        is_module runtime_object self (Z.of_nat k) m).1.1.1
               with
               | Some context => Some (context !! function_name, context)
               | None => None
               end,
               (execute_cells_until exec deepcopy has_module_attr
                  is_module runtime_object self (Z.of_nat k) m).1.1.2,
               (execute_cells_until exec deepcopy has_module_attr
                  is_module runtime_object self (Z.of_nat k) m).1.2,
               (execute_cells_until exec deepcopy has_module_attr
                  is_module runtime_object self (Z.of_nat k) m).2))
      as Hcall.
    { unfold call, get_function_with_context, get_context_for_function,
        find_function_cell.
      rewrite Hf.
      replace (Z.of_nat k =? -1) with false by (symmetry; lia).
      by destruct (execute_cells_until _ _ _ _ _ _ _ _)
        as [[[[context|] self'] out] m']. }
    split_and!.
    + done.
    + by apply search_def_spec.
    + intros j c' Hj Hc' Hh%search_def_spec. by rewrite (Hlt j c') in Hh.
    + exact Hcall.
    + intros Hmiss context. rewrite Hcall. cbn [fst].
      unfold self. rewrite execute_cells_until_miss by done.
      replace (Z.to_nat (Z.of_nat k + 1)) with (S k) by lia. done.
Qed.

End ContextApiFacts.

(** ** The shape validator of the executor *)

Section ShapeFacts.
Import NotebookExecutor ExecutorApi.
Context {Value : Type}.
Variable shape_of : Value -> option (list Z).

Lemma shape_loop_closed_form (context : gmap string Value)
    (expected : list (string * list Z)) (report : ShapeReport) :
  let added :=
    omap (fun entry => shape_error shape_of context entry.1 entry.2)
      expected in
  shape_loop shape_of context expected report
  = {| stage := stage report;
       valid := valid report && bool_decide (added = []);
       errors := errors report ++ added |}.
Proof.
  revert report.
  induction expected as [|[var_name expected_shape] rest IH]; intros report.
  - simpl. rewrite andb_true_r, app_nil_r. by destruct report.
  - cbn [shape_loop omap list_omap fst snd]. rewrite IH.
    destruct (shape_error shape_of context var_name expected_shape) as [e|].
    + cbn [stage valid errors]. rewrite <- app_assoc. simpl.
      by rewrite andb_false_r.
    + done.
Qed.

Lemma shape_error_None (context : gmap string Value) (var_name : string)
    (expected_shape : list Z) :
  shape_error shape_of context var_name expected_shape = None
  <-> exists value, context !! var_name = Some value
                    /\ shape_of value = Some expected_shape.
Proof.
  unfold shape_error. split.
  - destruct (context !! var_name) as [value|] eqn:Hvar; [|done].
    destruct (shape_of value) as [actual|] eqn:Hshape; [|done].
    case_bool_decide as Hne; [done|]. intros _. exists value.
    split; [done|]. rewrite Hshape. f_equal.
    destruct (decide (actual = expected_shape)) as [Heq|Hd]; [done|].
    by destruct Hne.
  - intros (value & -> & ->). rewrite bool_decide_eq_false_2; [done|].
    intros H. by apply H.
Qed.

Lemma omap_nil_iff {A B : Type} (f : A -> option B) (l : list A) :
  omap f l = [] <-> forall x, x ∈ l -> f x = None.
Proof.
  induction l as [|a l IH]; simpl.
  - split; [|done]. intros _ x Hx. by apply elem_of_nil in Hx.
  - destruct (f a) eqn:Hfa.
    + split; [done|]. intros H. specialize (H a).
      rewrite Hfa in H. discriminate H. by left.
    + rewrite IH. split.
      * intros H x [->|Hx]%elem_of_cons; auto.
      * intros H x Hx. apply H. by right.
Qed.

Lemma length_omap_le {A B : Type} (f : A -> option B) (l : list A) :
  (length (omap f l) <= length l)%nat.
Proof.
  induction l as [|a l IH]; [done|]. cbn [omap list_omap].
  fold (omap f l). destruct (f a); cbn [length]; lia.
Qed.

(** [validate_tensor_shapes] reports [valid] exactly when it lists no
    error, and that is exactly when the stage is one of the five of the
    table and every variable of the stage is bound to a value whose shape
    is the expected one.  A known stage gives at most one error per
    variable; an unknown stage gives the single error that names it. *)
Theorem validate_tensor_shapes_valid
    (context : gmap string Value) (stage_name : string) :
  let report := validate_tensor_shapes shape_of context stage_name in
  stage report = stage_name
  /\ (valid report = true <-> errors report = [])
  /\ (valid report = true <->
      exists expected,
        expected_shapes stage_name = Some expected
        /\ forall var_name expected_shape,
             (var_name, expected_shape) ∈ expected ->
             exists value, context !! var_name = Some value
                           /\ shape_of value = Some expected_shape)
  /\ (forall expected,
        expected_shapes stage_name = Some expected ->
        (length (errors report) <= length expected)%nat)
  /\ (expected_shapes stage_name = None ->
      errors report = ["Unknown stage: " +:+ stage_name]).
Proof.
  intros report. unfold report, validate_tensor_shapes.
  destruct (expected_shapes stage_name) as [expected|].
  - rewrite shape_loop_closed_form. cbn [stage valid errors app andb].
    rewrite bool_decide_eq_true. split_and!; try done.
    + rewrite omap_nil_iff. split.
      * intros H. exists expected. split; [done|].
        intros var_name expected_shape Hin.
        apply shape_error_None. apply (H _ Hin).
      * intros (expected' & [= <-] & H) [var_name expected_shape] Hin.
        apply shape_error_None. by apply H.
    + intros expected' [= <-]. apply length_omap_le.
  - cbn [stage valid errors]. split_and!; try done.
    split; [done|]. intros (expected & Hsome & _). done.
Qed.

End ShapeFacts.

(** ** More bindings, fewer missing names *)

Section ValidatorMonotone.
Import NotebookExecutor.
Context {Value : Type}.

Lemma sublist_filter_impl {A : Type} (P Q : A -> Prop)
    `{!forall x, Decision (P x)} `{!forall x, Decision (Q x)} (l : list A) :
  (forall x, P x -> Q x) -> sublist (filter P l) (filter Q l).
Proof.
  intros Himpl. induction l as [|a l IH]; [done|].
  rewrite !filter_cons. destruct (decide (P a)) as [Hp|Hp].
  - rewrite decide_True by auto. by constructor.
  - destruct (decide (Q a)); [by constructor|done].
Qed.

(** [validate_context_for_function] is monotone in the namespace: binding
    more names never adds a missing name, the names still missing keep
    their order, and a namespace that was valid stays valid. *)
Theorem validate_context_monotone
    (function_name : string) (context context' : gmap string Value) :
  let before := validate_context_for_function function_name context in
  let after := validate_context_for_function function_name context' in
  context ⊆ context' ->
  sublist after.2 before.2 /\ (before.1 = true -> after.1 = true).
Proof.
  intros before after Hsub.
  assert (sublist after.2 before.2) as Hlist.
  { unfold after, before, validate_context_for_function. cbn [snd].
    apply sublist_filter_impl. intros var Hnone.
    destruct (context !! var) as [value|] eqn:Hvar; [|done].
    eapply lookup_weaken in Hvar; [|done]. congruence. }
  split; [done|].
  unfold after, before, validate_context_for_function in *. cbn [fst snd] in *.
  rewrite !bool_decide_eq_true. intros Hnil.
  apply nil_length_inv in Hnil. rewrite Hnil in Hlist.
  apply sublist_nil_r in Hlist. by rewrite Hlist.
Qed.

End ValidatorMonotone.

Section ValidatorExamples.
Import NotebookExecutor.

Lemma validate_context_monotone_witness :
  let context : gmap string Z := {["Q" := 1]} in
  let before :=
    validate_context_for_function "compute_attention_scores" context in
  let after :=
    validate_context_for_function "compute_attention_scores"
      (<["math" := 2]> context) in
  sublist after.2 before.2 /\ (before.1 = true -> after.1 = true).
Proof.
  intros context before after.
  apply (validate_context_monotone "compute_attention_scores"
           context (<["math" := 2]> context)).
  apply insert_subseteq. reflexivity.
Defined.

End ValidatorExamples.

(** ** The response cache on its own *)

Section ResponseCacheFacts.
Import PyStr Py LLM.

Lemma length_app_str (s t : string) :
  String.length (s +:+ t) = (String.length s + String.length t)%nat.
Proof. induction s as [|c s IH]; [done|]. simpl. by rewrite IH. Qed.

Lemma app_inv_tail_str (s1 s2 t : string) :
  s1 +:+ t = s2 +:+ t -> s1 = s2.
Proof.
  revert s2. induction s1 as [|a s1 IH]; intros [|b s2] H; simpl in H.
  - done.
  - apply (f_equal String.length) in H.
    rewrite !length_app_str in H. simpl in H. lia.
  - apply (f_equal String.length) in H.
    rewrite !length_app_str in H. simpl in H. lia.
  - injection H as -> H. f_equal. by apply IH.
Qed.

Lemma cache_file_inj (c : ResponseCache) (key key' : string) :
  cache_file c key = cache_file c key' -> key = key'.
Proof.
  unfold cache_file. intros H.
  apply (inj (String.app _)) in H. apply (inj (String.app _)) in H.
  by apply app_inv_tail_str in H.
Qed.


End ResponseCacheFacts.

(** ** The cache key *)

Section CacheKeyFacts.
Import PyStr Py LLM.
Variable http_post : Role -> string -> list Event -> HttpOutcome.
Variable json_loads : string -> option pyval.
Variable md5_hexdigest : string -> string.
Variable create_code_comparison_prompt :
  string -> string -> string -> option pyval -> string.
Variable isoformat : Z -> string.

(** The cache key of [compare_code] is the digest of the three texts joined
    by [|], and the context argument does not enter it.  So after a call
    has returned a truthy verdict, a later call made before the entry
    expires gets that verdict, without any request, for every student
    code, reference code and function name whose joined text is the same
    (the same triple, or one in which a [|] falls on a different side of
    a separator) and for every context. *)
Theorem cached_verdict_served_to_colliding_call
    (self self1 : Evaluator) (c : ResponseCache)
    (student_code reference_code function_name : string)
    (student_code' reference_code' function_name' : string)
    (context context' : option pyval) (w w1 w2 : World) (verdict : pyval)
    (d : Z) (limiter2 : RateLimiter) :
  cache self = Some c ->
  compare_code http_post json_loads md5_hexdigest create_code_comparison_prompt
    isoformat self student_code reference_code function_name context w
  = (Ok verdict, self1, w1) ->
  truthy verdict = true ->
  student_code' +:+ "|" +:+ reference_code' +:+ "|" +:+ function_name'
  = student_code +:+ "|" +:+ reference_code +:+ "|" +:+ function_name ->
  wait_if_needed (rate_limiter self1) (elapse d w1) = (None, limiter2, w2) ->
  (forall cache_time,
     files w1 !! cache_file c
       (_generate_cache_key md5_hexdigest student_code reference_code
          function_name)
     = Some (Stored cache_time verdict) ->
     clock w2 - cache_time <= seconds (ttl_seconds c)) ->
  compare_code http_post json_loads md5_hexdigest create_code_comparison_prompt
    isoformat self1 student_code' reference_code' function_name' context'
    (elapse d w1)
  = (Ok verdict, with_rate_limiter self1 limiter2, w2)
  /\ posts w2 = posts w1.
Proof.
  intros Hcache Hfirst Htruthy Hsame Hgate Hfresh.
  destruct (compare_code_stores_verdict _ _ _ _ _ _ _ _ _ _ _ _ _ _ _
              Hcache Hfirst) as [Hcache1 [cache_time Hfile]].
  destruct (wait_if_needed_world _ _ _ _ _ Hgate) as [Hfiles Hposts].
  assert (_generate_cache_key md5_hexdigest student_code' reference_code'
            function_name'
          = _generate_cache_key md5_hexdigest student_code reference_code
              function_name) as Hkey.
  { unfold _generate_cache_key. by rewrite Hsame. }
  split; [|by rewrite Hposts].
  eapply compare_code_cache_hit; eauto.
  rewrite Hkey, Hfiles. exact Hfile.
Qed.

End CacheKeyFacts.

Section CacheKeyExamples.
Import PyStr Py LLM.

Lemma cached_verdict_served_to_colliding_call_witness :
  let compare :=
    compare_code (Scenario.answers "a correct implementation")
      Scenario.json_loads Scenario.md5_hexdigest
      Scenario.create_code_comparison_prompt Scenario.isoformat in
  let verdict :=
    PyDict [ ("comparison_result", PyStr "correct");
             ("educational_feedback", PyStr "a correct implementation");
             ("suggestions", PyList []);
             ("score", PyInt 85);
             ("understanding_check", PyList []);
             ("function_name", PyStr "f");
             ("timestamp", PyStr "0") ] in
  let first := compare Scenario.evaluator "a" "b|c" "f" None Scenario.start in
  let second :=
    compare first.1.2 "a|b" "c" "f" (Some PyNone)
      (elapse (seconds 5) first.2) in
  first.1.1 = Ok verdict
  /\ second.1.1 = Ok verdict
  /\ posts second.2 = posts first.2.
Proof.
  intros compare verdict first second.
  pose (gate := wait_if_needed (rate_limiter first.1.2)
                  (elapse (seconds 5) first.2)).
  destruct (cached_verdict_served_to_colliding_call
              (Scenario.answers "a correct implementation")
              Scenario.json_loads Scenario.md5_hexdigest
              Scenario.create_code_comparison_prompt Scenario.isoformat
              Scenario.evaluator first.1.2
              {| cache_dir := ".llm_cache"; ttl_seconds := 3600 |}
              "a" "b|c" "f" "a|b" "c" "f" None (Some PyNone)
              Scenario.start first.2 gate.2 verdict (seconds 5) gate.1.2)
    as [Hsecond Hposts].
  - reflexivity.
  - vm_compute. reflexivity.
  - reflexivity.
  - reflexivity.
  - vm_compute. reflexivity.
  - intros cache_time Hfile. vm_compute in Hfile.
    injection Hfile as <-. vm_compute. discriminate.
  - split; [vm_compute; reflexivity|].
    fold compare in Hsecond. fold second in Hsecond.
    rewrite Hsecond. split; [reflexivity|exact Hposts].
Defined.

End CacheKeyExamples.

(** ** Concept explanations and test cases *)

Section OtherRequestFacts.
Import PyStr Py LLM Spec LLMApi.
Variable http_post : Role -> string -> list Event -> HttpOutcome.
Variable create_concept_explanation_prompt : string -> string -> string.
Variable create_test_generation_prompt : string -> string -> string.

(** The provider loop without a parser: whatever the first provider that
    does not raise handed back ends the loop. *)
Lemma first_response_trace (self : Evaluator) (prompt : string) (w : World) :
  let primary :=
    generate_response http_post Primary (primary_provider self) prompt w in
  let out :=
    first_response http_post
      [ (Primary, Some (primary_provider self));
        (Fallback, fallback_provider self) ] prompt w in
  exists j1 j2 : nat,
    (j1 <= request_budget (Some (primary_provider self)))%nat
    /\ (j2 <= request_budget (fallback_provider self))%nat
    /\ trace out.2 = trace w ++ attempts Primary prompt 0 j1
                            ++ attempts Fallback prompt 0 j2
    /\ files out.2 = files w
    /\ (forall response,
          primary.1 = Ok response ->
          j2 = 0%nat /\ out = (Some response, primary.2))
    /\ (out.1 = None ->
        j1 = request_budget (Some (primary_provider self))
        /\ j2 = request_budget (fallback_provider self))
    /\ (Spec.all_requests_fail http_post prompt ->
        (1 <= request_budget (Some (primary_provider self)))%nat ->
        (forall p, fallback_provider self = Some p ->
                   (1 <= request_budget (Some p))%nat) ->
        out.1 = None).
Proof.
  intros primary out. unfold out. cbn [first_response]. fold primary.
  destruct (generate_response_trace http_post Primary (primary_provider self)
              prompt w) as (j1 & Hj1 & Htr1 & Hf1 & Hraise1 & Hnone1 & Hall1).
  fold primary in Htr1, Hf1, Hraise1, Hnone1, Hall1.
  destruct primary as [r1 w1] eqn:Hprimary. cbn [fst snd] in *.
  destruct r1 as [resp1|e1].
  - exists j1, 0%nat. cbn [fst snd attempts]. rewrite app_nil_r.
    split_and!; try done; try lia.
    + intros response [= ->]. done.
    + intros Hfail Hb1 _. destruct (Hall1 Hfail) as [_ Hex].
      destruct (Hex Hb1) as [e He]. done.
  - destruct (fallback_provider self) as [p2|] eqn:Hfb.
    + destruct (generate_response_trace http_post Fallback p2 prompt w1)
        as (j2 & Hj2 & Htr2 & Hf2 & Hraise2 & Hnone2 & Hall2).
      destruct (generate_response http_post Fallback p2 prompt w1)
        as [r2 w2] eqn:Hgen2. cbn [fst snd] in *.
      exists j1, j2. cbn [request_budget]. destruct r2 as [resp2|e2];
        cbn [fst snd].
      * split_and!; try done.
        -- by rewrite Htr2, Htr1, <- app_assoc.
        -- by rewrite Hf2.
        -- intros Hfail _ Hb2. destruct (Hall2 Hfail) as [_ Hex].
           destruct (Hex (Hb2 p2 eq_refl)) as [e He]. done.
      * split_and!; try done.
        -- by rewrite Htr2, Htr1, <- app_assoc.
        -- by rewrite Hf2.
        -- intros _. split; [by apply (Hraise1 e1)|by apply (Hraise2 e2)].
    + exists j1, 0%nat. cbn [fst snd attempts request_budget].
      rewrite app_nil_r. split_and!; try done; try lia.
      intros _. split; [by apply (Hraise1 e1)|done].
Qed.


(** [generate_test_cases] runs the same provider loop and then discards the
    answer: whenever it returns, it returns the one canned test case,
    whatever the provider said.  It raises only its own [LLMProviderError],
    after every configured provider has used all its attempts. *)
Theorem generate_test_cases_discards_response
    (self : Evaluator) (function_name function_signature : string)
    (w : World) :
  let prompt :=
    create_test_generation_prompt function_name function_signature in
  let primary :=
    generate_response http_post Primary (primary_provider self) prompt w in
  let call :=
    generate_test_cases http_post create_test_generation_prompt self
      function_name function_signature w in
  let canned :=
    PyList [ PyDict [ ("description", PyStr "Basic test case");
                      ("input", PyStr "sample_input");
                      ("expected", PyStr "sample_output") ] ] in
  exists j1 j2 : nat,
    trace call.2 = trace w ++ attempts Primary prompt 0 j1
                          ++ attempts Fallback prompt 0 j2
    /\ files call.2 = files w
    /\ (call.1 = Ok canned
        \/ (call.1
            = Raise (LLMProviderError
                       "All LLM providers failed to generate test cases")
            /\ j1 = request_budget (Some (primary_provider self))
            /\ j2 = request_budget (fallback_provider self)))
    /\ (forall response,
          primary.1 = Ok response ->
          j2 = 0%nat /\ call = (Ok canned, primary.2)).
Proof.
  intros prompt primary call canned.
  destruct (first_response_trace self prompt w)
    as (j1 & j2 & Hj1 & Hj2 & Htrace & Hfiles & Hprimary & Hnone & Hall).
  fold primary in Hprimary.
  unfold call, generate_test_cases. fold prompt.
  destruct (first_response http_post _ prompt w) as [[response|] w1] eqn:Hloop;
    cbn [fst snd] in *.
  - exists j1, j2. split_and!; try done; [by left|].
    intros response' Hresp. destruct (Hprimary response' Hresp) as [-> Heq].
    split; [done|]. by injection Heq as -> ->.
  - exists j1, j2. split_and!; try done.
    + right. by destruct (Hnone eq_refl) as [-> ->].
    + intros response' Hresp. by destruct (Hprimary response' Hresp) as [_ ?].
Qed.

End OtherRequestFacts.

(** ** A failed cell that leaves the loop's dict alone *)

Section FailedCellFacts.
Import PyStr NotebookExecutor Spec Replay.
Context {Value Store : Type}.
Variable exec : string -> Addr -> Memory Value Store -> ExecResult Value Store.
Variable deepcopy : Value -> option Value.
Variable has_module_attr : Value -> bool.
Variable is_module : Value -> bool.
Variable runtime_object : string -> Value.

(** When the cell at ordinal [k] raises, the loop goes on with the dict it
    held, in the memory that the cell has left, and one more warning.  If
    the cell has left the items of that dict as they were, the namespace
    after it is the one built by the cells before [k], and
    [execute_cells_until (k+1)] is the outcome of cell [k+1] run on it: the
    namespace that cell [k+1] produces when it runs to its end, and the
    namespace built by the cells before [k] when there is no cell [k+1]. *)
Theorem failed_cell_keeps_untouched_namespace
    (notebook_cells : list RawCell) (cache : gmap Z (gmap string Value))
    (k : nat) (cell : CodeCell) (m m' : Memory Value Store) :
  let self := {| cells := _extract_code_cells notebook_cells;
                 execution_cache := cache |} in
  let before :=
    run_cells exec 0 (take k (cells self)) (start runtime_object m) in
  cache !! Z.of_nat (S k) = None ->
  cells self !! k = Some cell ->
  cell_fails exec cell before m' ->
  dict_items m' before.1.1 = namespace before ->
  exists w,
    let after : State Value Store := (before.1.1, before.1.2 ++ [w], m') in
    let final :=
      run_cells exec (S k) (take 1 (drop (S k) (cells self))) after in
    cell_step exec k cell before = after
    /\ namespace after = namespace before
    /\ (execute_cells_until exec deepcopy has_module_attr is_module
          runtime_object self (Z.of_nat (S k)) m).1.1.1
       = Some (namespace final)
    /\ (forall next ns,
          cells self !! S k = Some next ->
          cell_returns exec next after ns -> namespace final = ns)
    /\ (cells self !! S k = None -> namespace final = namespace before).
Proof.
  intros self before Hmiss Hk Hfail Hsame.
  destruct (cell_step_raised exec k cell before m' Hfail) as [w Hstep].
  exists w. intros after final.
  assert (take (Z.to_nat (Z.of_nat (S k) + 1)) (cells self)
          = take k (cells self) ++ [cell] ++ take 1 (drop (S k) (cells self)))
    as Hsplit.
  { replace (Z.to_nat (Z.of_nat (S k) + 1)) with (S k + 1)%nat by lia.
    rewrite <- take_take_drop, (take_S_r _ _ _ Hk), <- app_assoc. done. }
  assert (length (take k (cells self)) = k) as Hlen.
  { apply length_take_le. apply lookup_lt_Some in Hk. lia. }
  split_and!.
  - exact Hstep.
  - exact Hsame.
  - unfold self. rewrite (execute_cells_until_miss exec) by done.
    fold self. rewrite Hsplit, run_cells_app, Hlen.
    cbn [app run_cells Nat.add]. fold before. rewrite Hstep. done.
  - intros next ns Hnext Hret. unfold final.
    rewrite (take_S_r _ 0 next), take_0 by by rewrite lookup_drop, Nat.add_0_r.
    cbn [app run_cells]. by apply cell_step_returns.
  - intros Hnone. unfold final.
    rewrite drop_ge by by apply lookup_ge_None. done.
Qed.

End FailedCellFacts.

Section FailedCellExamples.
Import PyStr NotebookExecutor Spec Replay.

Lemma failed_cell_keeps_untouched_namespace_witness :
  let self : Executor Toy.value := init Toy.demo_notebook in
  let failing :=
    {| index := 2;
       source := "note started" +:+ String newline "raise";
       original_index := 1 |} in
  let before :=
    run_cells Toy.exec 0 (take 1 (cells self))
      (start Toy.runtime_object Toy.empty_memory) in
  namespace (cell_step Toy.exec 1 failing before) = namespace before.
Proof.
  intros self failing before.
  destruct (failed_cell_keeps_untouched_namespace Toy.exec Toy.deepcopy
              Toy.no_attr Toy.no_attr Toy.runtime_object Toy.demo_notebook ∅
              1 failing Toy.empty_memory
              (cell_step Toy.exec 1 failing before).2)
    as (w & Hstep & Hsame & _).
  - reflexivity.
  - reflexivity.
  - split; [reflexivity|]. exists "raise", "raise". vm_compute. reflexivity.
  - vm_compute. reflexivity.
  - etrans; [|exact Hsame]. by rewrite <- Hstep.
Defined.

End FailedCellExamples.

(** ** The limiter beyond its window *)

Section LimiterFacts.
Import Py LLM Spec.

Lemma wait_if_needed_returns (rl rl' : RateLimiter) (w w' : World) :
  let pruned := List.filter (in_window (clock w)) (requests rl) in
  wait_if_needed rl w = (None, rl', w') ->
  requests rl' = pruned ++ [clock w]
  /\ requests_per_minute rl' = requests_per_minute rl
  /\ (w' = w
      \/ exists first,
           head pruned = Some first
           /\ 0 < minute - (clock w - first)
           /\ w' = sleep (minute - (clock w - first)) w).
Proof.
  intros pruned. unfold wait_if_needed. fold pruned.
  destruct (Z.of_nat (length pruned) >=? requests_per_minute rl).
  - destruct pruned as [|first rest]; [done|].
    intros [= <- <-]. split; [done|]. split; [done|].
    destruct (minute - (clock w - first) >? 0) eqn:Hs; [|by left].
    right. exists first. split; [done|]. split; [lia|done].
  - intros [= <- <-]. split; [done|]. split; [done|]. by left.
Qed.

Lemma Forall_filter_list {A : Type} (P : A -> Prop) (f : A -> bool)
    (l : list A) :
  Forall P l -> Forall P (List.filter f l).
Proof.
  induction 1 as [|x l Hx Hl IH]; simpl; [done|].
  destruct (f x); [by constructor|done].
Qed.

(** A limiter that started with an empty window and is used on a clock that
    does not run backwards never holds a timestamp of the future, and a
    call that returns has slept for more than no time and for at most one
    minute, or not at all. *)
Theorem limiter_sleeps_at_most_a_minute
    (rpm burst : Z) (rl : RateLimiter) (w : World) :
  limiter_at rpm burst rl (clock w) ->
  Forall (fun req_time => req_time <= clock w) (requests rl)
  /\ forall rl' w',
       wait_if_needed rl w = (None, rl', w') ->
       clock w <= clock w' <= clock w + minute
       /\ (w' = w
           \/ exists d, 0 < d <= minute /\ w' = sleep d w).
Proof.
  intros Hreach.
  assert (forall t, limiter_at rpm burst rl t ->
            Forall (fun req_time => req_time <= t) (requests rl)) as Hpast.
  { clear. intros t Hreach.
    induction Hreach as [t|rl t d _ IH Hd|rl rl' w w' _ IH Hcall].
    - constructor.
    - eapply Forall_impl; [exact IH|]. simpl. intros x Hx. lia.
    - destruct (wait_if_needed_returns rl rl' w w' Hcall)
        as (-> & _ & Hw').
      assert (clock w <= clock w') as Hle.
      { destruct Hw' as [->|(first & _ & Hpos & ->)]; simpl; lia. }
      apply Forall_app. split.
      + apply Forall_filter_list. eapply Forall_impl; [exact IH|].
        simpl. intros x Hx. lia.
      + constructor; [lia|constructor]. }
  specialize (Hpast _ Hreach). split; [done|].
  intros rl' w' Hcall.
  destruct (wait_if_needed_returns rl rl' w w' Hcall)
    as (_ & _ & [->|(first & Hhead & Hpos & ->)]).
  - unfold minute, seconds. split; [lia|by left].
  - assert (first <= clock w) as Hfirst.
    { assert (Forall (fun req_time => req_time <= clock w)
                (List.filter (in_window (clock w)) (requests rl))) as Hf
        by by apply Forall_filter_list.
      destruct (List.filter (in_window (clock w)) (requests rl))
        as [|x l]; [done|].
      injection Hhead as ->. by inversion Hf. }
    simpl. split; [lia|]. right.
    exists (minute - (clock w - first)). split; [lia|done].
Qed.

Lemma limiter_sleeps_at_most_a_minute_witness :
  exists rl' w',
    wait_if_needed Scenario.busy_limiter (Scenario.at_time (seconds 2))
    = (None, rl', w')
    /\ clock w' <= seconds 62.
Proof.
  assert (limiter_at 2 1 Scenario.busy_limiter
            (clock (Scenario.at_time (seconds 2)))) as Hreach.
  { apply (limiter_idle 2 1 _ (seconds 1) (seconds 1)); [|vm_compute; discriminate].
    apply (limiter_call 2 1
             {| requests_per_minute := 2; burst_limit := 1; requests := [0] |}
             Scenario.busy_limiter
             (Scenario.at_time (seconds 1)) (Scenario.at_time (seconds 1)));
      [|reflexivity].
    apply (limiter_idle 2 1 _ 0 (seconds 1)); [|vm_compute; discriminate].
    apply (limiter_call 2 1
             {| requests_per_minute := 2; burst_limit := 1; requests := [] |}
             _ (Scenario.at_time 0) (Scenario.at_time 0)); [|reflexivity].
    apply limiter_new. }
  destruct (limiter_sleeps_at_most_a_minute 2 1 Scenario.busy_limiter
              (Scenario.at_time (seconds 2)) Hreach) as [_ Hcall].
  eexists _, _. split; [reflexivity|].
  edestruct Hcall as [[_ Hle] _]; [reflexivity|]. exact Hle.
Defined.

End LimiterFacts.

(** ** No request allowed *)

Section ZeroRateFacts.
Import PyStr Py LLM Spec.
Variable http_post : Role -> string -> list Event -> HttpOutcome.
Variable json_loads : string -> option pyval.
Variable md5_hexdigest : string -> string.
Variable create_code_comparison_prompt :
  string -> string -> string -> option pyval -> string.
Variable isoformat : Z -> string.

(** With [requests_per_minute] at most 0 and no timestamp inside the window,
    as in a new evaluator, [compare_code] raises [IndexError] before it
    looks at the cache or sends a request; the world is as it was and the
    window is empty again, so every later call does the same. *)
Theorem zero_rate_blocks_every_comparison
    (self : Evaluator) (student_code reference_code function_name : string)
    (context : option pyval) (w : World) :
  let call :=
    compare_code http_post json_loads md5_hexdigest
      create_code_comparison_prompt isoformat self student_code
      reference_code function_name context w in
  requests_per_minute (rate_limiter self) <= 0 ->
  List.filter (in_window (clock w)) (requests (rate_limiter self)) = [] ->
  call.1.1 = Raise IndexError
  /\ call.2 = w
  /\ requests (rate_limiter call.1.2) = []
  /\ requests_per_minute (rate_limiter call.1.2)
     = requests_per_minute (rate_limiter self)
  /\ cache call.1.2 = cache self
  /\ primary_provider call.1.2 = primary_provider self
  /\ fallback_provider call.1.2 = fallback_provider self.
Proof.
  intros call Hrpm Hempty.
  assert (wait_if_needed (rate_limiter self) w
          = (Some IndexError,
             {| requests_per_minute := requests_per_minute (rate_limiter self);
                burst_limit := burst_limit (rate_limiter self);
                requests := [] |}, w)) as Hgate.
  { unfold wait_if_needed. rewrite Hempty.
    change (Z.of_nat (length (@nil Z))) with 0.
    by replace (0 >=? requests_per_minute (rate_limiter self)) with true
      by (symmetry; lia). }
  destruct (compare_code_gate http_post json_loads md5_hexdigest
              create_code_comparison_prompt isoformat self student_code
              reference_code function_name context w w _ _ Hgate)
    as (Hself & _ & _ & Hraise).
  fold call in Hself, Hraise.
  destruct (Hraise IndexError eq_refl) as [Herr Hworld].
  rewrite Hself. by split_and!.
Qed.

End ZeroRateFacts.

Section ZeroRateExamples.
Import PyStr Py LLM Spec.

Lemma zero_rate_blocks_every_comparison_witness :
  let limiter :=
    {| requests_per_minute := 0; burst_limit := 10; requests := [] |} in
  let self := with_rate_limiter Scenario.evaluator limiter in
  (compare_code Scenario.always_fails Scenario.json_loads
     Scenario.md5_hexdigest Scenario.create_code_comparison_prompt
     Scenario.isoformat self "s" "r" "f" None Scenario.start).1.1
  = Raise IndexError.
Proof.
  intros limiter self.
  apply (zero_rate_blocks_every_comparison Scenario.always_fails
           Scenario.json_loads Scenario.md5_hexdigest
           Scenario.create_code_comparison_prompt Scenario.isoformat self
           "s" "r" "f" None Scenario.start).
  - vm_compute. discriminate.
  - reflexivity.
Defined.

End ZeroRateExamples.

(** ** Construction of the evaluator *)

Section ConstructionFacts.
Import PyStr Py LLM LLMApi.

(** [LLMEvaluator.__init__] succeeds exactly when the primary provider can
    be built: its kind is [ollama], or it is [openai] and the API key is
    set to a non-empty text.  A fallback provider that cannot be built is
    dropped without a trace.  The evaluator starts with an empty rate
    window, has a cache exactly when caching is enabled, and its providers
    take their numbers of attempts from their configurations. *)
Theorem evaluator_init_cases (api_key : option string) (config : Config) :
  let usable (provider_config : ProviderConfig) :=
    provider provider_config = "ollama"
    \/ (provider provider_config = "openai"
        /\ exists key, api_key = Some key /\ key <> EmptyString) in
  ((exists self, LLMEvaluator_init api_key config = Ok self)
   <-> usable (primary config))
  /\ (forall e, LLMEvaluator_init api_key config = Raise e ->
        exists msg, e = LLMProviderError msg)
  /\ (forall self,
        LLMEvaluator_init api_key config = Ok self ->
        rate_limiter self
        = RateLimiter_init (config_requests_per_minute config)
            (config_burst_limit config)
        /\ (is_Some (cache self) <-> cache_enabled config = true)
        /\ retry_attempts (primary_provider self)
           = config_retry_attempts (primary config)
        /\ (is_Some (fallback_provider self) <-> usable (fallback config))
        /\ (forall p, fallback_provider self = Some p ->
              retry_attempts p = config_retry_attempts (fallback config))).
Proof.
  intros usable.
  assert (forall provider_config,
            (exists p, _init_provider api_key provider_config = Ok p
                       /\ retry_attempts p
                          = config_retry_attempts provider_config)
            /\ usable provider_config
            \/ (exists msg, _init_provider api_key provider_config
                            = Raise (LLMProviderError msg))
               /\ ~ usable provider_config) as Hprovider.
  { intros provider_config. unfold _init_provider, usable.
    destruct (String.eqb_spec (provider provider_config) "ollama") as [Ho|Ho].
    { left. split; [eauto|by left]. }
    destruct (String.eqb_spec (provider provider_config) "openai") as [Ha|Ha].
    - unfold OpenAIProvider_init. destruct api_key as [key|].
      + simpl. destruct (String.eqb_spec key EmptyString) as [->|Hkey]; simpl.
        * right. split; [eauto|]. intros [?|[_ (key & [= <-] & ?)]]; done.
        * left. split; [eauto|]. right. split; [done|]. eauto.
      + right. split; [eauto|]. intros [?|[_ (key & ? & _)]]; done.
    - right. split; [eauto|]. intros [?|[? _]]; done. }
  unfold LLMEvaluator_init.
  destruct (Hprovider (primary config))
    as [[(p1 & -> & Hr1) Hu1]|[(msg1 & ->) Hn1]].
  - destruct (Hprovider (fallback config))
      as [[(p2 & -> & Hr2) Hu2]|[(msg2 & ->) Hn2]].
    + split_and!; [split; eauto|done|].
      intros self [= <-].
      cbn [rate_limiter cache primary_provider fallback_provider].
      split_and!.
      * done.
      * unfold _setup_cache.
        destruct (cache_enabled config); split; intros H;
          first [done|by eauto|by destruct H].
      * exact Hr1.
      * split; [done|eauto].
      * intros p [= <-]. exact Hr2.
    + split_and!; [split; eauto|done|].
      intros self [= <-].
      cbn [rate_limiter cache primary_provider fallback_provider].
      split_and!.
      * done.
      * unfold _setup_cache.
        destruct (cache_enabled config); split; intros H;
          first [done|by eauto|by destruct H].
      * exact Hr1.
      * split; [by intros [? ?]|]. intros Hu. by destruct (Hn2 Hu).
      * by intros p [=].
  - split_and!.
    + split; [by intros [? ?]|done].
    + intros e [= <-]. eauto.
    + done.
Qed.

End ConstructionFacts.
